(** * The block explorer's index maintenance (modules/blockexplorer/addblock.go)

    A shallow embedding of [addBlockDB], [addTransaction] and the index
    writers they call, over a model of the bolt transaction they write to.

    The packages the file imports ([bolt], [encoding], [types], [build],
    [crypto]) are collaborators: what the code needs from them is
    collected in the classes [Bolt], [Encoding], [Types] and [Build], and
    every definition and theorem is stated for arbitrary instances.  The
    module [Reference] fixes one instance, on which the examples are
    evaluated. *)

From stdpp Require Import gmap strings list.
From Stdlib Require Import ZArith NArith Ascii.

Local Open Scope string_scope.

(** ** Data *)

(** A [[]byte] value; keys and values of a bucket are byte strings. *)
Abbreviation bytes := string (only parsing).

(** [crypto.Hash] is [[32]byte], read as a 256-bit number.  The named
    array types [types.UnlockHash], [types.BlockID], [types.SiacoinOutputID],
    [types.SiafundOutputID] and [types.FileContractID] convert to and from
    [crypto.Hash] without changing a byte, so one type stands for all. *)
Definition Hash := N.

(** [crypto.Hash{}], the zero value of the array type. *)
Definition Hash_zero : Hash := 0%N.

Definition BlockHeight := Z.
Definition Timestamp := Z.
Definition Target := N.

(** Modelled from the spec: [types.RootDepth], which the package [types]
    declares outside these sources; "the root sentinel is the maximal
    (easiest) value", a target of 32 bytes all set. *)
Definition RootDepth : Target := (2 ^ 256 - 1)%N.

(** Modelled from the spec: the constants [hashBlock], [hashTransaction],
    [hashCoinOutputID], [hashFundOutputID], [hashFilecontract] and
    [hashUnlockHash] are declared elsewhere in the package; the spec lists
    them as the category enum {block, transaction, coin-output,
    fund-output, contract, address}. *)
Inductive hashType :=
| hashBlock
| hashTransaction
| hashCoinOutputID
| hashFundOutputID
| hashFilecontract
| hashUnlockHash.

(** [ErrNilEntry] is the package variable; [err != ErrNilEntry] compares
    with that one value.  An [errors.New] at a call site, an error of
    [encoding.Unmarshal] and an error of bolt are other values. *)
Inductive error :=
| ErrNilEntry
| errors_New (msg : string)
| encoding_error (msg : string)
| bolt_error (msg : string).

#[global] Instance error_eq_dec : EqDecision error.
Proof. solve_decision. Defined.

Module SiacoinInput.
Record t := { ParentID : Hash }.
End SiacoinInput.

Module SiacoinOutput.
Record t := { Value : N; UnlockHash : Hash }.
End SiacoinOutput.

Module FileContract.
Record t := {
  ValidProofOutputs : list SiacoinOutput.t;
  MissedProofOutputs : list SiacoinOutput.t;
  UnlockHash : Hash }.
End FileContract.

Module FileContractRevision.
Record t := {
  ParentID : Hash;
  NewValidProofOutputs : list SiacoinOutput.t;
  NewMissedProofOutputs : list SiacoinOutput.t;
  NewUnlockHash : Hash }.
End FileContractRevision.

Module StorageProof.
Record t := { ParentID : Hash }.
End StorageProof.

Module SiafundInput.
Record t := { ParentID : Hash }.
End SiafundInput.

Module SiafundOutput.
Record t := { Value : N; UnlockHash : Hash }.
End SiafundOutput.

Module Transaction.
Record t := {
  SiacoinInputs : list SiacoinInput.t;
  SiacoinOutputs : list SiacoinOutput.t;
  FileContracts : list FileContract.t;
  FileContractRevisions : list FileContractRevision.t;
  StorageProofs : list StorageProof.t;
  SiafundInputs : list SiafundInput.t;
  SiafundOutputs : list SiafundOutput.t;
  ArbitraryData : list string }.
End Transaction.

Module Block.
Record t := {
  ParentID : Hash;
  Nonce : N;
  Timestamp : Timestamp;
  MinerPayouts : list SiacoinOutput.t;
  Transactions : list Transaction.t }.
End Block.

(** Modelled from the spec: the record types the package declares outside
    these sources.  An output record is "(creating transaction id,
    spending transaction id | empty)"; the source builds it positionally
    as [outputTransactions{txid, crypto.Hash{}}] and assigns [ot.InputTx]. *)
Record outputTransactions := { OutputTx : Hash; InputTx : Hash }.

(** Modelled from the spec: a contract record is "(creating transaction
    id, ordered list of revision transaction ids, proof transaction id |
    empty)"; the source names the fields [Contract], [Revisions], [Proof]. *)
Record fcInfo := { Contract : Hash; Revisions : list Hash; Proof : Hash }.

(** Modelled from the spec: a block record is "(block payload, height)". *)
Record blockData := { bd_Block : Block.t; bd_Height : BlockHeight }.

(** Modelled from the spec: a transaction locator is "(containing block
    id, index of the transaction within that block)"; built positionally
    as [txInfo{b.ID(), i}]. *)
Record txInfo := { BlockID : Hash; TxNum : nat }.

(** [modules.ExplorerBlockData], with the fields [addBlockDB] fills in. *)
Record ExplorerBlockData := {
  ebd_ID : Hash;
  ebd_Timestamp : Timestamp;
  ebd_Target : Target;
  ebd_Size : Z }.

(** ** Collaborators *)

(** [encoding.Marshal] and [encoding.Unmarshal] at one Go type.
    [Unmarshal] gives the decoded object or the message of its error. *)
Class Encoding (A : Type) := {
  Marshal : A -> bytes;
  Unmarshal : bytes -> string + A }.

(** The methods of [types.Block], [types.Transaction] and
    [types.FileContractID] that derive identifiers. *)
Class Types := {
  Block_ID : Block.t -> Hash;
  Block_MinerPayoutID : Block.t -> nat -> Hash;
  Transaction_ID : Transaction.t -> Hash;
  Transaction_SiacoinOutputID : Transaction.t -> nat -> Hash;
  Transaction_FileContractID : Transaction.t -> nat -> Hash;
  Transaction_SiafundOutputID : Transaction.t -> nat -> Hash;
  StorageProofOutputID : Hash -> bool -> nat -> Hash }.

(** What bolt decides on its own: whether [Put] refuses a key and value
    (and with which error), whether [Begin] fails, and whether [Commit]
    of the pending buckets fails. *)
Class Bolt := {
  Put_refuses : bytes -> bytes -> option string;
  Begin_fails : option string;
  Commit_fails : gmap string (gmap string string) -> option string }.

(** The constants [build.DEBUG] and [build.Release]. *)
Class Build := { DEBUG : bool; Release : string }.

(** A bucket maps keys to values; a bolt transaction holds its buckets by
    name.  The committed database has the same shape. *)
Abbreviation Bucket := (gmap string string) (only parsing).
Abbreviation Tx := (gmap string (gmap string string)) (only parsing).

(** A function [f(tx *bolt.Tx, ...) error]: it may write to the
    transaction and returns [nil] ([None]) or an error.  The writes made
    before an error stay in the transaction. *)
Definition action := Tx -> option error * Tx.

(** [err := a(...); if err != nil { return err }; ...] *)
Definition andThen (a b : action) : action := fun tx =>
  match a tx with
  | (Some err, tx') => (Some err, tx')
  | (None, tx') => b tx'
  end.

Infix ">>" := andThen (at level 62, right associativity).

(** Falling out of a loop, or off the end of a block. *)
Definition done_ : action := fun tx => (None, tx).

(** [for i, x := range l { err := body(i, x); if err != nil { return err } }],
    the index starting at [i]. *)
Fixpoint rangeFrom {A} (i : nat) (l : list A) (body : nat -> A -> action) : action :=
  match l with
  | [] => done_
  | x :: l' => body i x >> rangeFrom (S i) l' body
  end.

Definition range {A} (l : list A) (body : nat -> A -> action) : action :=
  rangeFrom 0 l body.

(** A call whose result is dropped: [a(...)] as a statement. *)
Definition discard (a : action) : action := fun tx => (None, (a tx).2).

(** What a reader of the transaction (or of the committed database)
    finds under [key] in the bucket [name]. *)
Definition stored (tx : Tx) (name : string) (key : bytes) : option bytes :=
  match tx !! name with
  | Some b => b !! key
  | None => None
  end.

(** An operation leaves the bucket [name] of a transaction as it is,
    whether it returns an error or not. *)
Definition preserves (name : string) (a : action) : Prop :=
  forall tx, (a tx).2 !! name = tx !! name.

Section Explorer.
Context {TY : Types} {BO : Bolt} {BU : Build}.
Context `{!Encoding Hash} `{!Encoding BlockHeight} `{!Encoding hashType}.
Context `{!Encoding (list Hash)} `{!Encoding outputTransactions}.
Context `{!Encoding fcInfo} `{!Encoding blockData} `{!Encoding txInfo}.
Context `{!Encoding ExplorerBlockData} `{!Encoding Block.t}.

(** Modelled from the spec: the store is a collaborator, "a transactional
    store exposing: begin/commit/rollback, and per named collection:
    get-by-key (distinguishing absent from I/O failure) and put-by-key".
    [b.Put(key, value)] on a bucket of a writable transaction either is
    refused, and changes nothing, or binds the key. *)
Definition Put (b : Bucket) (key value : bytes) : option error * Bucket :=
  match Put_refuses key value with
  | Some msg => (Some (bolt_error msg), b)
  | None => (None, <[key := value]> b)
  end.

(** [getObject], lines 19-25.  [b.Get] gives [nil] for a key the bucket
    does not hold.  [obj] is what the caller's variable holds before the
    call, the second component what it holds after. *)
Definition getObject {K A} `{!Encoding K} `{!Encoding A}
    (b : Bucket) (key : K) (obj : A) : option error * A :=
  match b !! Marshal key with
  | None => (Some ErrNilEntry, obj)
  | Some objBytes =>
      match Unmarshal objBytes with
      | inl msg => (Some (encoding_error msg), obj)
      | inr v => (None, v)
      end
  end.

(** [putObject], lines 27-29. *)
Definition putObject {K V} `{!Encoding K} `{!Encoding V}
    (b : Bucket) (key : K) (val : V) : option error * Bucket :=
  Put b (Marshal key) (Marshal val).

(** A [*bolt.Bucket] is a view into its transaction: a [Put] through it
    is a write to the transaction, so the bucket is stored back under its
    name. *)
Definition store (name : string) (r : option error * Bucket) (tx : Tx)
    : option error * Tx :=
  (r.1, <[name := r.2]> tx).

(** [addHashType], lines 32-39. *)
Definition addHashType (hash : Hash) (hashType : hashType) : action := fun tx =>
  match tx !! "Hashes" with
  | None => (Some (errors_New "bucket Hashes does not exist"), tx)
  | Some b => store "Hashes" (putObject b hash hashType) tx
  end.

(** [addAddress], lines 43-62.  [txns] starts as the nil slice; the test
    of line 56 is [err != ErrNilEntry], and [err] may be [nil]. *)
Definition addAddress (addr : Hash) (txid : Hash) : action :=
  addHashType addr hashUnlockHash >>
  fun tx =>
  match tx !! "Addresses" with
  | None => (Some (errors_New "Addresses bucket does not exist"), tx)
  | Some b =>
      let '(err, txns) := getObject b addr ([] : list Hash) in
      if decide (err <> Some ErrNilEntry) then (err, tx)
      else store "Addresses" (putObject b addr (txns ++ [txid])%list) tx
  end.

(** [addSiacoinInput], lines 66-81. *)
Definition addSiacoinInput (outputID : Hash) (txid : Hash) : action := fun tx =>
  match tx !! "SiacoinOutputs" with
  | None => (Some (errors_New "bucket SiacoinOutputs does not exist"), tx)
  | Some b =>
      let '(err, ot) := getObject b outputID {| OutputTx := Hash_zero; InputTx := Hash_zero |} in
      match err with
      | Some e => (Some e, tx)
      | None =>
          let ot := {| OutputTx := OutputTx ot; InputTx := txid |} in
          store "SiacoinOutputs" (putObject b outputID ot) tx
      end
  end.

(** [addSiafundInput], lines 84-99. *)
Definition addSiafundInput (outputID : Hash) (txid : Hash) : action := fun tx =>
  match tx !! "SiafundOutputs" with
  | None => (Some (errors_New "bucket SiafundOutputs does not exist"), tx)
  | Some b =>
      let '(err, ot) := getObject b outputID {| OutputTx := Hash_zero; InputTx := Hash_zero |} in
      match err with
      | Some e => (Some e, tx)
      | None =>
          let ot := {| OutputTx := OutputTx ot; InputTx := txid |} in
          store "SiafundOutputs" (putObject b outputID ot) tx
      end
  end.

(** [addFcRevision], lines 103-118. *)
Definition addFcRevision (fcid : Hash) (txid : Hash) : action := fun tx =>
  match tx !! "FileContracts" with
  | None => (Some (errors_New "bucket FileContracts does not exist"), tx)
  | Some b =>
      let '(err, fi) := getObject b fcid {| Contract := Hash_zero; Revisions := []; Proof := Hash_zero |} in
      match err with
      | Some e => (Some e, tx)
      | None =>
          let fi := {| Contract := Contract fi; Revisions := (Revisions fi ++ [txid])%list; Proof := Proof fi |} in
          store "FileContracts" (putObject b fcid fi) tx
      end
  end.

(** [addFcProof], lines 122-137. *)
Definition addFcProof (fcid : Hash) (txid : Hash) : action := fun tx =>
  match tx !! "FileContracts" with
  | None => (Some (errors_New "bucket FileContracts does not exist"), tx)
  | Some b =>
      let '(err, fi) := getObject b fcid {| Contract := Hash_zero; Revisions := []; Proof := Hash_zero |} in
      match err with
      | Some e => (Some e, tx)
      | None =>
          let fi := {| Contract := Contract fi; Revisions := Revisions fi; Proof := txid |} in
          store "FileContracts" (putObject b fcid fi) tx
      end
  end.

(** [addNewHash], lines 139-150. *)
Definition addNewHash {V} `{!Encoding V}
    (bucketName : string) (t : hashType) (hash : Hash) (value : V) : action :=
  addHashType hash t >>
  fun tx =>
  match tx !! bucketName with
  | None => (Some (errors_New ("bucket does not exist: " +:+ bucketName)), tx)
  | Some b => store bucketName (putObject b hash value) tx
  end.

(** [addNewOutput], lines 153-156. *)
Definition addNewOutput (outputID : Hash) (txid : Hash) : action :=
  let otx := {| OutputTx := txid; InputTx := Hash_zero |} in
  addNewHash "SiacoinOutputs" hashCoinOutputID outputID otx.

(** [addNewSFOutput], lines 159-162. *)
Definition addNewSFOutput (outputID : Hash) (txid : Hash) : action :=
  let otx := {| OutputTx := txid; InputTx := Hash_zero |} in
  addNewHash "SiafundOutputs" hashFundOutputID outputID otx.

(** [addHeight], lines 166-173; the message names the bucket Blocks. *)
Definition addHeight (height : BlockHeight) (bs : ExplorerBlockData) : action := fun tx =>
  match tx !! "Heights" with
  | None => (Some (errors_New "bucket Blocks does not exist"), tx)
  | Some b => store "Heights" (putObject b height bs) tx
  end.

(** The loops of [addTransaction], in the order of the source; [txid] is
    [tx.ID()]. *)

(** Lines 264-269, the body for one input and the loop. *)
Definition coinInput (tx : Transaction.t) (_ : nat) (input : SiacoinInput.t) : action :=
  let txid := Transaction_ID tx in
  addSiacoinInput (SiacoinInput.ParentID input) txid.

Definition coinInputs (tx : Transaction.t) : action :=
  range (Transaction.SiacoinInputs tx) (coinInput tx).

(** Lines 272-281. *)
Definition coinOutputs (tx : Transaction.t) : action :=
  let txid := Transaction_ID tx in
  range (Transaction.SiacoinOutputs tx) (fun i output =>
    addAddress (SiacoinOutput.UnlockHash output) txid >>
    addNewOutput (Transaction_SiacoinOutputID tx i) txid).

(** The body of the loop of lines 284-318, for the contract at index [i]. *)
Definition fileContract (tx : Transaction.t) (i : nat) (contract : FileContract.t) : action :=
  let txid := Transaction_ID tx in
  let fcid := Transaction_FileContractID tx i in
  addNewHash "FileContracts" hashFilecontract fcid
    {| Contract := txid; Revisions := []; Proof := Hash_zero |} >>
  range (FileContract.ValidProofOutputs contract) (fun j output =>
    addAddress (SiacoinOutput.UnlockHash output) txid >>
    addNewOutput (StorageProofOutputID fcid true j) txid) >>
  range (FileContract.MissedProofOutputs contract) (fun j output =>
    addAddress (SiacoinOutput.UnlockHash output) txid >>
    addNewOutput (StorageProofOutputID fcid false j) txid) >>
  addAddress (FileContract.UnlockHash contract) txid.

Definition fileContracts (tx : Transaction.t) : action :=
  range (Transaction.FileContracts tx) (fileContract tx).

(** The body of the loop of lines 321-352.  The result of the last call,
    line 351, is not assigned. *)
Definition fileContractRevision (tx : Transaction.t) (revision : FileContractRevision.t) : action :=
  let txid := Transaction_ID tx in
  let parent := FileContractRevision.ParentID revision in
  addFcRevision parent txid >>
  range (FileContractRevision.NewValidProofOutputs revision) (fun i output =>
    addAddress (SiacoinOutput.UnlockHash output) txid >>
    addNewOutput (StorageProofOutputID parent true i) txid) >>
  range (FileContractRevision.NewMissedProofOutputs revision) (fun i output =>
    addAddress (SiacoinOutput.UnlockHash output) txid >>
    addNewOutput (StorageProofOutputID parent false i) txid) >>
  discard (addAddress (FileContractRevision.NewUnlockHash revision) txid).

Definition fileContractRevisions (tx : Transaction.t) : action :=
  range (Transaction.FileContractRevisions tx) (fun _ revision =>
    fileContractRevision tx revision).

(** Lines 355-360. *)
Definition storageProofs (tx : Transaction.t) : action :=
  let txid := Transaction_ID tx in
  range (Transaction.StorageProofs tx) (fun _ proof =>
    addFcProof (StorageProof.ParentID proof) txid).

(** Lines 363-368, the body for one input and the loop. *)
Definition fundInput (tx : Transaction.t) (_ : nat) (input : SiafundInput.t) : action :=
  let txid := Transaction_ID tx in
  addSiafundInput (SiafundInput.ParentID input) txid.

Definition fundInputs (tx : Transaction.t) : action :=
  range (Transaction.SiafundInputs tx) (fundInput tx).

(** Lines 371-381. *)
Definition fundOutputs (tx : Transaction.t) : action :=
  let txid := Transaction_ID tx in
  range (Transaction.SiafundOutputs tx) (fun i output =>
    addAddress (SiafundOutput.UnlockHash output) txid >>
    addNewSFOutput (Transaction_SiafundOutputID tx i) txid).

(** [addTransaction]; the receiver [be] is not used by the body. *)
Definition addTransaction (tx : Transaction.t) : action :=
  coinInputs tx >>
  coinOutputs tx >>
  fileContracts tx >>
  fileContractRevisions tx >>
  storageProofs tx >>
  fundInputs tx >>
  fundOutputs tx >>
  addHashType (Transaction_ID tx) hashTransaction.

(** The consensus set, as far as the explorer calls it:
    [ChildTarget(id) (target, exists)]. *)
Record ConsensusSet := { ChildTarget : Hash -> Target * bool }.

(** The fields of [BlockExplorer] that [addBlockDB] reads; [db] is the
    committed content of the bolt database. *)
Record BlockExplorer := {
  db : Tx;
  cs : ConsensusSet;
  blockchainHeight : BlockHeight;
  genesisBlockID : Hash }.

(** How a call ends: it returns its [error] result, or it panics. *)
Inductive outcome :=
| Return (err : option error)
| Panic (msg : string).

(** Modelled from the spec: "the store transaction only protects
    atomicity/isolation of a single transaction's writes"; the writes of
    a transaction are its own until it commits.  [db.Begin(true)]: a
    writable transaction starts from the committed buckets. *)
Definition Begin (d : Tx) : error + Tx :=
  match Begin_fails with
  | Some msg => inl (bolt_error msg)
  | None => inr d
  end.

(** Modelled from the spec: "rolls back, discarding every write
    attempted for this block".  [tx.Rollback()] drops the writes of the
    transaction. *)
Definition Rollback (tx d : Tx) : Tx := d.

(** Modelled from the spec: "atomic commit/rollback over named
    collections".  [tx.Commit()]: the buckets of the transaction become
    the committed ones, or the commit fails and nothing is committed. *)
Definition Commit (tx d : Tx) : option error * Tx :=
  match Commit_fails tx with
  | Some msg => (Some (bolt_error msg), d)
  | None => (None, tx)
  end.

(** Lines 180-195: the target of the block, or the message of the panic. *)
Definition blockTarget (be : BlockExplorer) (b : Block.t) : string + Target :=
  if decide (Block_ID b = genesisBlockID be) then inr RootDepth
  else
    let '(blocktarget, exists_) := ChildTarget (cs be) (Block.ParentID b) in
    if DEBUG then
      let blocktarget :=
        if decide (Release = "testing") then RootDepth else blocktarget in
      if negb exists_ then inl "Applied block not in consensus"
      else inr blocktarget
    else inr blocktarget.

(** Lines 203-228: the block record, the height summary and the hash
    tag of the block. *)
Definition blockHeader (be : BlockExplorer) (b : Block.t) (blocktarget : Target) : action :=
  let blockStruct := {| bd_Block := b; bd_Height := blockchainHeight be |} in
  addNewHash "Blocks" hashBlock (Block_ID b) blockStruct >>
  let bSum := {|
    ebd_ID := Block_ID b;
    ebd_Timestamp := Block.Timestamp b;
    ebd_Target := blocktarget;
    ebd_Size := Z.of_nat (String.length (Marshal b)) |} in
  addHeight (blockchainHeight be) bSum >>
  addHashType (Block_ID b) hashBlock.

(** Lines 231-240. *)
Definition minerPayouts (b : Block.t) : action :=
  range (Block.MinerPayouts b) (fun i payout =>
    addAddress (SiacoinOutput.UnlockHash payout) (Block_ID b) >>
    addNewOutput (Block_MinerPayoutID b i) (Block_ID b)).

(** The body of the loop of lines 243-252, for the transaction at index
    [i]. *)
Definition indexTransaction (b : Block.t) (i : nat) (txn : Transaction.t) : action :=
  addNewHash "Transactions" hashTransaction (Transaction_ID txn)
    {| BlockID := Block_ID b; TxNum := i |} >>
  addTransaction txn.

(** Lines 203-252: the writes of [addBlockDB] between [Begin] and
    [Commit]. *)
Definition indexBlock (be : BlockExplorer) (b : Block.t) (blocktarget : Target) : action :=
  blockHeader be b blocktarget >>
  minerPayouts b >>
  range (Block.Transactions b) (indexTransaction b).

(** [addBlockDB]: the outcome of the call and the committed content of
    the database after it.  [defer tx.Rollback()] runs on every return:
    after an error it drops the writes; after [Commit] it finds the
    transaction closed and does nothing. *)
Definition addBlockDB (be : BlockExplorer) (b : Block.t) : outcome * Tx :=
  match blockTarget be b with
  | inl msg => (Panic msg, db be)
  | inr blocktarget =>
      match Begin (db be) with
      | inl err => (Return (Some err), db be)
      | inr tx =>
          match indexBlock be b blocktarget tx with
          | (Some err, tx') => (Return (Some err), Rollback tx' (db be))
          | (None, tx') =>
              let '(err, d) := Commit tx' (db be) in (Return err, d)
          end
      end
  end.

End Explorer.

(** ** Points of a run

    The writes made before a given call is reached, composed of the same
    pieces as the functions above. *)

Section Progress.
Context {TY : Types} {BO : Bolt}.
Context `{!Encoding Hash} `{!Encoding BlockHeight} `{!Encoding hashType}.
Context `{!Encoding (list Hash)} `{!Encoding outputTransactions}.
Context `{!Encoding fcInfo} `{!Encoding blockData} `{!Encoding txInfo}.
Context `{!Encoding ExplorerBlockData} `{!Encoding Block.t}.

(** [addBlockDB], from [Begin] to the call of [addTransaction] on the
    block's transaction [k], which is [txn]. *)
Definition uptoTransaction (be : BlockExplorer) (b : Block.t) (blocktarget : Target)
    (k : nat) (txn : Transaction.t) : action :=
  blockHeader be b blocktarget >>
  minerPayouts b >>
  range (take k (Block.Transactions b)) (indexTransaction b) >>
  addNewHash "Transactions" hashTransaction (Transaction_ID txn)
    {| BlockID := Block_ID b; TxNum := k |}.

(** [addTransaction], up to the call of [addSiacoinInput] on input [j]. *)
Definition uptoCoinInput (tx : Transaction.t) (j : nat) : action :=
  range (take j (Transaction.SiacoinInputs tx)) (coinInput tx).

(** [addTransaction], up to the call of [addSiafundInput] on input [j]. *)
Definition uptoFundInput (tx : Transaction.t) (j : nat) : action :=
  coinInputs tx >>
  coinOutputs tx >>
  fileContracts tx >>
  fileContractRevisions tx >>
  storageProofs tx >>
  range (take j (Transaction.SiafundInputs tx)) (fundInput tx).

(** [fileContractRevision], up to the call of [addAddress] of line 351. *)
Definition uptoRevisionAddress (tx : Transaction.t) (revision : FileContractRevision.t) : action :=
  let txid := Transaction_ID tx in
  let parent := FileContractRevision.ParentID revision in
  addFcRevision parent txid >>
  range (FileContractRevision.NewValidProofOutputs revision) (fun i output =>
    addAddress (SiacoinOutput.UnlockHash output) txid >>
    addNewOutput (StorageProofOutputID parent true i) txid) >>
  range (FileContractRevision.NewMissedProofOutputs revision) (fun i output =>
    addAddress (SiacoinOutput.UnlockHash output) txid >>
    addNewOutput (StorageProofOutputID parent false i) txid).

End Progress.

(** ** Sequences of updates

    The operations that rewrite a record already stored, and runs of
    them, as the properties below speak of them. *)

(** An operation that changes a field of a record already stored. *)
Inductive update :=
| SpendCoin (outputID txid : Hash)
| SpendFund (outputID txid : Hash)
| Prove (fcid txid : Hash).

Section Updates.
Context {BO : Bolt}.
Context `{!Encoding Hash} `{!Encoding outputTransactions} `{!Encoding fcInfo}.

Definition perform (u : update) : action :=
  match u with
  | SpendCoin outputID txid => addSiacoinInput outputID txid
  | SpendFund outputID txid => addSiafundInput outputID txid
  | Prove fcid txid => addFcProof fcid txid
  end.

(** The bucket and key of the record an update rewrites. *)
Definition target (u : update) : string * bytes :=
  match u with
  | SpendCoin outputID _ => ("SiacoinOutputs", Marshal outputID)
  | SpendFund outputID _ => ("SiafundOutputs", Marshal outputID)
  | Prove fcid _ => ("FileContracts", Marshal fcid)
  end.

(** The record an update leaves, given the creator it found. *)
Definition written (u : update) (creator : Hash) (revisions : list Hash) : bytes :=
  match u with
  | SpendCoin _ txid | SpendFund _ txid =>
      Marshal {| OutputTx := creator; InputTx := txid |}
  | Prove _ txid =>
      Marshal {| Contract := creator; Revisions := revisions; Proof := txid |}
  end.

(** Updates carried out in order, up to the first error. *)
Definition performAll (us : list update) : action :=
  range us (fun _ u => perform u).

(** Revisions [(fcid, txid)] carried out in order, up to the first error. *)
Definition reviseAll (ops : list (Hash * Hash)) : action :=
  range ops (fun _ op => addFcRevision op.1 op.2).

(** The transaction ids of the revisions that address the key of [fcid]. *)
Definition revisionsOf (fcid : Hash) (ops : list (Hash * Hash)) : list Hash :=
  snd <$> filter (fun op : Hash * Hash => Marshal op.1 = Marshal fcid) ops.

End Updates.

(** Equality of records and of outcomes is decidable; the examples are
    settled by evaluation. *)
#[global] Instance outputTransactions_eq_dec : EqDecision outputTransactions.
Proof. solve_decision. Defined.

#[global] Instance fcInfo_eq_dec : EqDecision fcInfo.
Proof. solve_decision. Defined.

#[global] Instance outcome_eq_dec : EqDecision outcome.
Proof. solve_decision. Defined.

(** ** Notions for the properties of the writers *)

(** The transaction id an update carries. *)
Definition update_txid (u : update) : Hash :=
  match u with
  | SpendCoin _ txid | SpendFund _ txid | Prove _ txid => txid
  end.

(** Nothing is dropped between [tx] and [tx']: they have the same
    buckets, and every key bound in a bucket of [tx] is bound in it in
    [tx']. *)
Definition keeps_entries (tx tx' : Tx) : Prop :=
  dom tx' = dom tx /\
  forall name key, is_Some (stored tx name key) -> is_Some (stored tx' name key).

(** An operation that never returns [ErrNilEntry]. *)
Definition never_ErrNilEntry (a : action) : Prop :=
  forall tx, (a tx).1 <> Some ErrNilEntry.

(** An operation that drops no bucket and no key, whether it returns an
    error or not. *)
Definition keeps (a : action) : Prop :=
  forall tx, keeps_entries tx (a tx).2.

(** An operation that leaves the value [v] under [key] in the bucket
    [name] when it finds it there. *)
Definition keeps_value (name : string) (key v : bytes) (a : action) : Prop :=
  forall tx, stored tx name key = Some v -> stored (a tx).2 name key = Some v.

Section Notions.
Context {BO : Bolt}.
Context `{!Encoding Hash} `{!Encoding hashType} `{!Encoding (list Hash)}.
Context `{!Encoding outputTransactions} `{!Encoding fcInfo}.

(** References to one address carried out in order, up to the first
    error. *)
Definition referenceAll (addr : Hash) (txids : list Hash) : action :=
  range txids (fun _ txid => addAddress addr txid).

(** The transaction id of the last update of [us] that rewrites the
    record under [key] in the bucket [name]; [init] when there is none. *)
Definition lastSet (name : string) (key : bytes) (init : Hash) (us : list update) : Hash :=
  foldl (fun acc u => if decide (target u = (name, key)) then update_txid u else acc)
    init us.

End Notions.

Section MoreProgress.
Context {TY : Types} {BO : Bolt}.
Context `{!Encoding Hash} `{!Encoding BlockHeight} `{!Encoding hashType}.
Context `{!Encoding (list Hash)} `{!Encoding outputTransactions}.
Context `{!Encoding fcInfo} `{!Encoding blockData} `{!Encoding txInfo}.
Context `{!Encoding ExplorerBlockData} `{!Encoding Block.t}.

(** [addTransaction], up to the call of [addFcRevision] for revision [j]. *)
Definition uptoRevision (tx : Transaction.t) (j : nat) : action :=
  coinInputs tx >>
  coinOutputs tx >>
  fileContracts tx >>
  range (take j (Transaction.FileContractRevisions tx)) (fun _ revision =>
    fileContractRevision tx revision).

(** [addTransaction], up to the call of [addFcProof] for proof [j]. *)
Definition uptoStorageProof (tx : Transaction.t) (j : nat) : action :=
  coinInputs tx >>
  coinOutputs tx >>
  fileContracts tx >>
  fileContractRevisions tx >>
  range (take j (Transaction.StorageProofs tx)) (fun _ proof =>
    addFcProof (StorageProof.ParentID proof) (Transaction_ID tx)).

End MoreProgress.

(** ** A reference instance

    One instance of the collaborators, on which the examples below are
    evaluated.  Numbers are written bit by bit, so every object has one
    encoding and decoding reads it back; identifiers are derived from
    the fields by arithmetic. *)
Module Reference.

Fixpoint put_positive (p : positive) (rest : string) : string :=
  match p with
  | xH => String "."%char rest
  | xO p' => String "0"%char (put_positive p' rest)
  | xI p' => String "1"%char (put_positive p' rest)
  end.

Fixpoint get_positive (s : string) : option (positive * string) :=
  match s with
  | EmptyString => None
  | String c s' =>
      if Ascii.eqb c "."%char then Some (xH, s')
      else if Ascii.eqb c "0"%char then
        match get_positive s' with
        | Some (p, r) => Some (xO p, r)
        | None => None
        end
      else if Ascii.eqb c "1"%char then
        match get_positive s' with
        | Some (p, r) => Some (xI p, r)
        | None => None
        end
      else None
  end.

Definition put_N (n : N) (rest : string) : string :=
  match n with
  | N0 => String "z"%char rest
  | Npos p => String "p"%char (put_positive p rest)
  end.

Definition get_N (s : string) : option (N * string) :=
  match s with
  | EmptyString => None
  | String c s' =>
      if Ascii.eqb c "z"%char then Some (N0, s')
      else if Ascii.eqb c "p"%char then
        match get_positive s' with
        | Some (p, r) => Some (Npos p, r)
        | None => None
        end
      else None
  end.

Definition put_hashes (l : list Hash) (rest : string) : string :=
  put_N (N.of_nat (length l)) (foldr put_N rest l).

Fixpoint get_n_hashes (n : nat) (s : string) : option (list Hash * string) :=
  match n with
  | O => Some ([], s)
  | S n' =>
      match get_N s with
      | Some (h, r) =>
          match get_n_hashes n' r with
          | Some (l, r') => Some (h :: l, r')
          | None => None
          end
      | None => None
      end
  end.

Definition get_hashes (s : string) : option (list Hash * string) :=
  match get_N s with
  | Some (n, r) => get_n_hashes (N.to_nat n) r
  | None => None
  end.

Definition get_outputTransactions (s : string) : option (outputTransactions * string) :=
  match get_N s with
  | Some (o, r) =>
      match get_N r with
      | Some (i, r') => Some ({| OutputTx := o; InputTx := i |}, r')
      | None => None
      end
  | None => None
  end.

Definition get_fcInfo (s : string) : option (fcInfo * string) :=
  match get_N s with
  | Some (c, r) =>
      match get_hashes r with
      | Some (l, r') =>
          match get_N r' with
          | Some (p, r'') =>
              Some ({| Contract := c; Revisions := l; Proof := p |}, r'')
          | None => None
          end
      | None => None
      end
  | None => None
  end.

(** Decoding must use up the input. *)
Definition whole {A} (r : option (A * string)) : string + A :=
  match r with
  | Some (x, EmptyString) => inr x
  | Some (_, String _ _) => inl "trailing bytes"
  | None => inl "unexpected end of input"
  end.

Definition write_only {A} (s : string) : string + A := inl "not decoded here".

Definition hashType_code (t : hashType) : N :=
  match t with
  | hashBlock => 0
  | hashTransaction => 1
  | hashCoinOutputID => 2
  | hashFundOutputID => 3
  | hashFilecontract => 4
  | hashUnlockHash => 5
  end.

#[export] Instance Hash_encoding : Encoding Hash :=
  {| Marshal h := put_N h ""; Unmarshal s := whole (get_N s) |}.

#[export] Instance BlockHeight_encoding : Encoding BlockHeight :=
  {| Marshal h := put_N (Z.to_N h) ""; Unmarshal := write_only |}.

#[export] Instance hashType_encoding : Encoding hashType :=
  {| Marshal t := put_N (hashType_code t) ""; Unmarshal := write_only |}.

#[export] Instance hashes_encoding : Encoding (list Hash) :=
  {| Marshal l := put_hashes l ""; Unmarshal s := whole (get_hashes s) |}.

#[export] Instance outputTransactions_encoding : Encoding outputTransactions :=
  {| Marshal ot := put_N (OutputTx ot) (put_N (InputTx ot) "");
     Unmarshal s := whole (get_outputTransactions s) |}.

#[export] Instance fcInfo_encoding : Encoding fcInfo :=
  {| Marshal fi := put_N (Contract fi) (put_hashes (Revisions fi) (put_N (Proof fi) ""));
     Unmarshal s := whole (get_fcInfo s) |}.

#[export] Instance Block_encoding : Encoding Block.t :=
  {| Marshal b :=
       put_N (Block.ParentID b) (put_N (Block.Nonce b)
         (put_N (Z.to_N (Block.Timestamp b))
           (put_N (N.of_nat (length (Block.MinerPayouts b)))
             (put_N (N.of_nat (length (Block.Transactions b))) ""))));
     Unmarshal := write_only |}.

#[export] Instance blockData_encoding : Encoding blockData :=
  {| Marshal bd := put_N (Z.to_N (bd_Height bd)) (Marshal (bd_Block bd));
     Unmarshal := write_only |}.

#[export] Instance txInfo_encoding : Encoding txInfo :=
  {| Marshal ti := put_N (BlockID ti) (put_N (N.of_nat (TxNum ti)) "");
     Unmarshal := write_only |}.

#[export] Instance ExplorerBlockData_encoding : Encoding ExplorerBlockData :=
  {| Marshal bs :=
       put_N (ebd_ID bs) (put_N (Z.to_N (ebd_Timestamp bs))
         (put_N (ebd_Target bs) (put_N (Z.to_N (ebd_Size bs)) "")));
     Unmarshal := write_only |}.

#[export] Instance types : Types := {|
  Block_ID b := Block.Nonce b;
  Block_MinerPayoutID b i := (1000 * Block.Nonce b + 900 + N.of_nat i)%N;
  Transaction_ID t := (100 + N.of_nat (length (Transaction.ArbitraryData t)))%N;
  Transaction_SiacoinOutputID t i :=
    (1000 * (100 + N.of_nat (length (Transaction.ArbitraryData t))) + N.of_nat i)%N;
  Transaction_FileContractID t i :=
    (1000 * (100 + N.of_nat (length (Transaction.ArbitraryData t))) + 300 + N.of_nat i)%N;
  Transaction_SiafundOutputID t i :=
    (1000 * (100 + N.of_nat (length (Transaction.ArbitraryData t))) + 600 + N.of_nat i)%N;
  StorageProofOutputID fcid valid j :=
    (1000 * fcid + (if valid then 100 else 200) + N.of_nat j)%N |}.

(** bolt refuses an empty key; nothing else fails. *)
#[export] Instance bolt : Bolt := {|
  Put_refuses k v := if decide (k = "") then Some "key required" else None;
  Begin_fails := None;
  Commit_fails _ := None |}.

#[export] Instance release_build : Build := {| DEBUG := false; Release := "standard" |}.
Definition debug_build : Build := {| DEBUG := true; Release := "dev" |}.
Definition testing_build : Build := {| DEBUG := true; Release := "testing" |}.

(** A database with every bucket, all empty. *)
Definition empty_db : Tx :=
  list_to_map ((fun name => (name, (∅ : Bucket))) <$>
    ["Hashes"; "Addresses"; "Blocks"; "Heights"; "Transactions";
     "SiacoinOutputs"; "SiafundOutputs"; "FileContracts"]).

Local Open Scope N_scope.

(** Output 5 created by transaction 100, then spent by 101, then by 102. *)
Definition created_output : Tx := (addNewOutput 5 100 empty_db).2.
Definition spent_once : Tx := (addSiacoinInput 5 101 created_output).2.
Definition spent_twice : Tx := (addSiacoinInput 5 102 spent_once).2.

(** The same for a siafund output. *)
Definition created_sf_output : Tx := (addNewSFOutput 5 100 empty_db).2.

(** Contract 8 formed by transaction 100, then proved by 101, then by 102. *)
Definition formed_contract : Tx :=
  (addNewHash "FileContracts" hashFilecontract 8
     {| Contract := 100; Revisions := []; Proof := Hash_zero |} empty_db).2.
Definition proved_once : Tx := (addFcProof 8 101 formed_contract).2.
Definition proved_twice : Tx := (addFcProof 8 102 proved_once).2.

(** Address 7 referenced by 101. *)
Definition referenced_once : Tx := (addAddress 7 101 empty_db).2.

(** An explorer at height 1 over the database [d]; block 0 is the genesis
    block, and the consensus set knows every parent. *)
Definition explorer (d : Tx) : BlockExplorer :=
  {| db := d;
     cs := {| ChildTarget := fun _ => (17, true) |};
     blockchainHeight := 1%Z;
     genesisBlockID := 0 |}.

(** The same explorer over a consensus set that knows no parent. *)
Definition stray_explorer (d : Tx) : BlockExplorer :=
  {| db := d;
     cs := {| ChildTarget := fun _ => (17, false) |};
     blockchainHeight := 1%Z;
     genesisBlockID := 0 |}.

Definition no_transaction : Transaction.t :=
  {| Transaction.SiacoinInputs := [];
     Transaction.SiacoinOutputs := [];
     Transaction.FileContracts := [];
     Transaction.FileContractRevisions := [];
     Transaction.StorageProofs := [];
     Transaction.SiafundInputs := [];
     Transaction.SiafundOutputs := [];
     Transaction.ArbitraryData := [] |}.

(** Transaction 101 spends the coin output 5 and the fund output 6. *)
Definition spending_tx : Transaction.t :=
  {| Transaction.SiacoinInputs := [{| SiacoinInput.ParentID := 5 |}];
     Transaction.SiacoinOutputs := [];
     Transaction.FileContracts := [];
     Transaction.FileContractRevisions := [];
     Transaction.StorageProofs := [];
     Transaction.SiafundInputs := [{| SiafundInput.ParentID := 6 |}];
     Transaction.SiafundOutputs := [];
     Transaction.ArbitraryData := ["spend"] |}.

(** Transaction 101 spends the fund output 6 only. *)
Definition fund_spending_tx : Transaction.t :=
  {| Transaction.SiacoinInputs := [];
     Transaction.SiacoinOutputs := [];
     Transaction.FileContracts := [];
     Transaction.FileContractRevisions := [];
     Transaction.StorageProofs := [];
     Transaction.SiafundInputs := [{| SiafundInput.ParentID := 6 |}];
     Transaction.SiafundOutputs := [];
     Transaction.ArbitraryData := ["spend"] |}.

(** Transaction 101 revises contract 8; the revision has no outputs and
    the new unlock hash 7. *)
Definition the_revision : FileContractRevision.t :=
  {| FileContractRevision.ParentID := 8;
     FileContractRevision.NewValidProofOutputs := [];
     FileContractRevision.NewMissedProofOutputs := [];
     FileContractRevision.NewUnlockHash := 7 |}.

Definition revising_tx : Transaction.t :=
  {| Transaction.SiacoinInputs := [];
     Transaction.SiacoinOutputs := [];
     Transaction.FileContracts := [];
     Transaction.FileContractRevisions := [the_revision];
     Transaction.StorageProofs := [];
     Transaction.SiafundInputs := [];
     Transaction.SiafundOutputs := [];
     Transaction.ArbitraryData := ["revise"] |}.

(** Transaction 100 pays to address 9. *)
Definition paying_tx : Transaction.t :=
  {| Transaction.SiacoinInputs := [];
     Transaction.SiacoinOutputs :=
       [{| SiacoinOutput.Value := 3; SiacoinOutput.UnlockHash := 9 |}];
     Transaction.FileContracts := [];
     Transaction.FileContractRevisions := [];
     Transaction.StorageProofs := [];
     Transaction.SiafundInputs := [];
     Transaction.SiafundOutputs := [];
     Transaction.ArbitraryData := [] |}.

(** Block 2, child of block 1, with one transaction and no payout. *)
Definition block_of (txn : Transaction.t) : Block.t :=
  {| Block.ParentID := 1; Block.Nonce := 2; Block.Timestamp := 50%Z;
     Block.MinerPayouts := []; Block.Transactions := [txn] |}.

(** Block 0, the genesis block: a payout to address 7 and [paying_tx]. *)
Definition genesis_block : Block.t :=
  {| Block.ParentID := 0; Block.Nonce := 0; Block.Timestamp := 40%Z;
     Block.MinerPayouts :=
       [{| SiacoinOutput.Value := 1; SiacoinOutput.UnlockHash := 7 |}];
     Block.Transactions := [paying_tx] |}.

(** Transaction 100 forms a contract, its id 100300, with one output for
    a valid proof, one for a missed proof, and the unlock hash 11. *)
Definition the_contract : FileContract.t :=
  {| FileContract.ValidProofOutputs :=
       [{| SiacoinOutput.Value := 1; SiacoinOutput.UnlockHash := 7 |}];
     FileContract.MissedProofOutputs :=
       [{| SiacoinOutput.Value := 1; SiacoinOutput.UnlockHash := 9 |}];
     FileContract.UnlockHash := 11 |}.

Definition forming_tx : Transaction.t :=
  {| Transaction.SiacoinInputs := [];
     Transaction.SiacoinOutputs := [];
     Transaction.FileContracts := [the_contract];
     Transaction.FileContractRevisions := [];
     Transaction.StorageProofs := [];
     Transaction.SiafundInputs := [];
     Transaction.SiafundOutputs := [];
     Transaction.ArbitraryData := [] |}.

Definition fresh_contract : Tx :=
  (addNewHash "FileContracts" hashFilecontract
     (Transaction_FileContractID forming_tx 0)
     {| Contract := Transaction_ID forming_tx; Revisions := [];
        Proof := Hash_zero |} empty_db).2.

(** Contracts 8 and 9, both formed by transaction 100. *)
Definition two_contracts : Tx :=
  (addNewHash "FileContracts" hashFilecontract 9
     {| Contract := 100; Revisions := []; Proof := Hash_zero |} formed_contract).2.

(** Contract 8 is revised by 101 and by 103, contract 9 by 102 in between. *)
Definition three_revisions : list (Hash * Hash) := [(8, 101); (9, 102); (8, 103)].

(** A database that holds contract 8 and has no bucket "Addresses". *)
Definition no_addresses_db : Tx := delete "Addresses" formed_contract.






(** Output 5 created by 100 next to contract 8 formed by 100. *)
Definition output_and_contract : Tx := (addNewOutput 5 100 formed_contract).2.

(** Output 5 is spent by 101, contract 8 is proved by 103, output 5 is
    spent again by 102. *)
Definition three_updates : list update :=
  [SpendCoin 5 101; Prove 8 103; SpendCoin 5 102].

(** Transaction 101 proves contract 8. *)
Definition proving_tx : Transaction.t :=
  {| Transaction.SiacoinInputs := [];
     Transaction.SiacoinOutputs := [];
     Transaction.FileContracts := [];
     Transaction.FileContractRevisions := [];
     Transaction.StorageProofs := [{| StorageProof.ParentID := 8 |}];
     Transaction.SiafundInputs := [];
     Transaction.SiafundOutputs := [];
     Transaction.ArbitraryData := ["prove"] |}.

(** Block 2, child of block 1, with no payout and no transaction. *)
Definition empty_block : Block.t :=
  {| Block.ParentID := 1; Block.Nonce := 2; Block.Timestamp := 50%Z;
     Block.MinerPayouts := []; Block.Transactions := [] |}.

(** The empty buckets and one more bucket, which the explorer does not
    use. *)
Definition db_with_other : Tx := <["Other" := {["k" := "v"]}]> empty_db.

End Reference.

(** ** Sequencing and loops *)

Lemma andThen_ok (a b : action) tx tx' :
  a tx = (None, tx') -> (a >> b) tx = b tx'.
Proof. intros Ha. unfold andThen. now rewrite Ha. Qed.

Lemma andThen_err (a b : action) tx e tx' :
  a tx = (Some e, tx') -> (a >> b) tx = (Some e, tx').
Proof. intros Ha. unfold andThen. now rewrite Ha. Qed.

Lemma andThen_None_inv (a b : action) tx tx2 :
  (a >> b) tx = (None, tx2) ->
  exists tx1, a tx = (None, tx1) /\ b tx1 = (None, tx2).
Proof.
  unfold andThen. destruct (a tx) as [[e|] tx1]; intros E.
  - discriminate.
  - now exists tx1.
Qed.

Lemma rangeFrom_app {A} (l1 l2 : list A) body i tx :
  rangeFrom i (l1 ++ l2) body tx =
  (rangeFrom i l1 body >> rangeFrom (i + length l1) l2 body) tx.
Proof.
  revert i tx. induction l1 as [|x l1 IH]; intros i tx; simpl.
  - unfold andThen, done_. now rewrite Nat.add_0_r.
  - unfold andThen. destruct (body i x tx) as [[e|] tx1]; [reflexivity|].
    rewrite IH. unfold andThen. now rewrite Nat.add_succ_r.
Qed.

(** The loop reaches element [k] after the elements before it, and an
    error of its body there is the result of the loop. *)
Lemma range_reach_err {A} (l : list A) body k x tx tx1 e tx2 :
  l !! k = Some x ->
  range (take k l) body tx = (None, tx1) ->
  body k x tx1 = (Some e, tx2) ->
  range l body tx = (Some e, tx2).
Proof.
  intros Hk Hpre Hx. unfold range in *.
  rewrite <- (take_drop_middle l k x Hk), rangeFrom_app.
  rewrite (andThen_ok _ _ _ _ Hpre). simpl.
  rewrite length_take_le by (apply Nat.lt_le_incl; eapply lookup_lt_Some; eauto).
  now apply andThen_err.
Qed.

(** A loop that returns [nil] ran its body on every element, each time
    without error. *)
Lemma range_None_inv {A} (l : list A) body tx tx' k x :
  range l body tx = (None, tx') ->
  l !! k = Some x ->
  exists s s', range (take k l) body tx = (None, s) /\ body k x s = (None, s').
Proof.
  intros E Hk. unfold range in *.
  rewrite <- (take_drop_middle l k x Hk), rangeFrom_app in E.
  apply andThen_None_inv in E as (s & E1 & E2). simpl in E2.
  apply andThen_None_inv in E2 as (s' & E2 & _).
  rewrite length_take_le in E2
    by (apply Nat.lt_le_incl; eapply lookup_lt_Some; eauto).
  eauto.
Qed.

(** ** Frame: the buckets an operation does not name *)

Lemma preserves_done name : preserves name done_.
Proof. now intros tx. Qed.

Lemma preserves_andThen name (a b : action) :
  preserves name a -> preserves name b -> preserves name (a >> b).
Proof.
  intros Ha Hb tx. unfold andThen. specialize (Ha tx).
  destruct (a tx) as [[e|] tx1]; simpl in *; [assumption|].
  now rewrite Hb.
Qed.

Lemma preserves_rangeFrom {A} name (l : list A) body i :
  (forall j x, preserves name (body j x)) -> preserves name (rangeFrom i l body).
Proof.
  intros Hb. revert i. induction l as [|x l IH]; intros i; simpl.
  - apply preserves_done.
  - apply preserves_andThen; [apply Hb | apply IH].
Qed.

Lemma preserves_range {A} name (l : list A) body :
  (forall j x, preserves name (body j x)) -> preserves name (range l body).
Proof. apply preserves_rangeFrom. Qed.

Lemma preserves_discard name (a : action) :
  preserves name a -> preserves name (discard a).
Proof. intros Ha tx. apply Ha. Qed.

Lemma preserves_stored name (a : action) tx key :
  preserves name a -> stored (a tx).2 name key = stored tx name key.
Proof. intros Ha. unfold stored. now rewrite Ha. Qed.

Section Frame.
Context {TY : Types} {BO : Bolt}.
Context `{!Encoding Hash} `{!Encoding BlockHeight} `{!Encoding hashType}.
Context `{!Encoding (list Hash)} `{!Encoding outputTransactions}.
Context `{!Encoding fcInfo} `{!Encoding blockData} `{!Encoding txInfo}.
Context `{!Encoding ExplorerBlockData} `{!Encoding Block.t}.

Lemma store_other name name' r (tx : Tx) :
  name <> name' -> (store name' r tx).2 !! name = tx !! name.
Proof. intros Hne. unfold store. simpl. now rewrite lookup_insert_ne. Qed.

Lemma preserves_addHashType name hash t :
  name <> "Hashes" -> preserves name (addHashType hash t).
Proof.
  intros Hne tx. unfold addHashType.
  destruct (tx !! "Hashes"); [now apply store_other | reflexivity].
Qed.

Lemma preserves_addAddress name addr txid :
  name <> "Hashes" -> name <> "Addresses" -> preserves name (addAddress addr txid).
Proof.
  intros H1 H2. unfold addAddress. apply preserves_andThen.
  - now apply preserves_addHashType.
  - intros tx. destruct (tx !! "Addresses") as [b|]; [|reflexivity].
    destruct (getObject b addr []) as [err txns].
    destruct (decide (err <> Some ErrNilEntry)); [reflexivity|].
    now apply store_other.
Qed.

Lemma preserves_addNewHash {V} `{!Encoding V} name bucketName t hash (value : V) :
  name <> "Hashes" -> name <> bucketName ->
  preserves name (addNewHash bucketName t hash value).
Proof.
  intros H1 H2. unfold addNewHash. apply preserves_andThen.
  - now apply preserves_addHashType.
  - intros tx. destruct (tx !! bucketName); [now apply store_other | reflexivity].
Qed.

Lemma preserves_addNewOutput name outputID txid :
  name <> "Hashes" -> name <> "SiacoinOutputs" ->
  preserves name (addNewOutput outputID txid).
Proof. intros. now apply preserves_addNewHash. Qed.

Lemma preserves_addNewSFOutput name outputID txid :
  name <> "Hashes" -> name <> "SiafundOutputs" ->
  preserves name (addNewSFOutput outputID txid).
Proof. intros. now apply preserves_addNewHash. Qed.

Lemma preserves_addSiacoinInput name outputID txid :
  name <> "SiacoinOutputs" -> preserves name (addSiacoinInput outputID txid).
Proof.
  intros Hne tx. unfold addSiacoinInput.
  destruct (tx !! "SiacoinOutputs") as [b|]; [|reflexivity].
  destruct (getObject b outputID _) as [[e|] ot]; [reflexivity|].
  now apply store_other.
Qed.

Lemma preserves_addSiafundInput name outputID txid :
  name <> "SiafundOutputs" -> preserves name (addSiafundInput outputID txid).
Proof.
  intros Hne tx. unfold addSiafundInput.
  destruct (tx !! "SiafundOutputs") as [b|]; [|reflexivity].
  destruct (getObject b outputID _) as [[e|] ot]; [reflexivity|].
  now apply store_other.
Qed.

Lemma preserves_addFcRevision name fcid txid :
  name <> "FileContracts" -> preserves name (addFcRevision fcid txid).
Proof.
  intros Hne tx. unfold addFcRevision.
  destruct (tx !! "FileContracts") as [b|]; [|reflexivity].
  destruct (getObject b fcid _) as [[e|] fi]; [reflexivity|].
  now apply store_other.
Qed.

Lemma preserves_addFcProof name fcid txid :
  name <> "FileContracts" -> preserves name (addFcProof fcid txid).
Proof.
  intros Hne tx. unfold addFcProof.
  destruct (tx !! "FileContracts") as [b|]; [|reflexivity].
  destruct (getObject b fcid _) as [[e|] fi]; [reflexivity|].
  now apply store_other.
Qed.

End Frame.

(** Frame goals over the writers and their compositions. *)
Ltac solve_preserves :=
  repeat match goal with
  | |- preserves _ (addAddress _ _) => apply preserves_addAddress; discriminate
  | |- preserves _ (addNewOutput _ _) => apply preserves_addNewOutput; discriminate
  | |- preserves _ (addNewSFOutput _ _) => apply preserves_addNewSFOutput; discriminate
  | |- preserves _ (addNewHash _ _ _ _) => apply preserves_addNewHash; discriminate
  | |- preserves _ (addHashType _ _) => apply preserves_addHashType; discriminate
  | |- preserves _ (addSiacoinInput _ _) => apply preserves_addSiacoinInput; discriminate
  | |- preserves _ (addSiafundInput _ _) => apply preserves_addSiafundInput; discriminate
  | |- preserves _ (addFcRevision _ _) => apply preserves_addFcRevision; discriminate
  | |- preserves _ (addFcProof _ _) => apply preserves_addFcProof; discriminate
  | |- preserves _ (discard _) => apply preserves_discard
  | |- preserves _ (range _ _) => apply preserves_range; intros
  | |- preserves _ (_ >> _) => apply preserves_andThen
  end.

(** ** The index writers *)

Section Writers.
Context {TY : Types} {BO : Bolt}.
Context `{!Encoding Hash} `{!Encoding BlockHeight} `{!Encoding hashType}.
Context `{!Encoding (list Hash)} `{!Encoding outputTransactions}.
Context `{!Encoding fcInfo} `{!Encoding blockData} `{!Encoding txInfo}.
Context `{!Encoding ExplorerBlockData} `{!Encoding Block.t}.

Lemma Put_None_inv (b b' : Bucket) key value :
  Put b key value = (None, b') ->
  Put_refuses key value = None /\ b' = <[key := value]> b.
Proof.
  unfold Put. destruct (Put_refuses key value); intros E; [discriminate|].
  now inversion E.
Qed.

(** A successful write through [store] leaves the value under the key. *)
Lemma store_None_inv name (b : Bucket) key value (tx tx1 : Tx) :
  store name (Put b key value) tx = (None, tx1) ->
  Put_refuses key value = None /\
  tx1 = <[name := <[key := value]> b]> tx.
Proof.
  unfold store. destruct (Put b key value) as [err b'] eqn:E. simpl.
  intros E'. inversion E'; subst. apply Put_None_inv in E as [? ->]. auto.
Qed.

Lemma addNewHash_None_inv {V} `{!Encoding V} bucketName t hash (value : V) tx tx2 :
  addNewHash bucketName t hash value tx = (None, tx2) ->
  exists tx1 b,
    addHashType hash t tx = (None, tx1) /\
    tx1 !! bucketName = Some b /\
    Put_refuses (Marshal hash) (Marshal value) = None /\
    tx2 = <[bucketName := <[Marshal hash := Marshal value]> b]> tx1.
Proof.
  unfold addNewHash. intros E. apply andThen_None_inv in E as (tx1 & E1 & E2).
  exists tx1. destruct (tx1 !! bucketName) as [b|] eqn:Hb; [|discriminate].
  exists b. apply store_None_inv in E2 as [? ?]. auto.
Qed.

Lemma addNewHash_stored {V} `{!Encoding V} bucketName t hash (value : V) tx tx2 :
  addNewHash bucketName t hash value tx = (None, tx2) ->
  stored tx2 bucketName (Marshal hash) = Some (Marshal value).
Proof.
  intros E. apply addNewHash_None_inv in E as (tx1 & b & _ & _ & _ & ->).
  unfold stored. now rewrite !lookup_insert_eq.
Qed.

(** *** addAddress *)

(** The first reference to an address starts its list. *)
Lemma addAddress_absent addr txid tx tx1 b :
  addHashType addr hashUnlockHash tx = (None, tx1) ->
  tx1 !! "Addresses" = Some b ->
  b !! Marshal addr = None ->
  addAddress addr txid tx =
    store "Addresses" (putObject b addr [txid]) tx1.
Proof.
  intros E Hb Hk. unfold addAddress. rewrite (andThen_ok _ _ _ _ E).
  rewrite Hb. unfold getObject. rewrite Hk.
  destruct (decide (Some ErrNilEntry <> Some ErrNilEntry)); [congruence|].
  reflexivity.
Qed.

(** A reference to an address that has a list: [getObject] returns [nil],
    [nil != ErrNilEntry] holds, and [addAddress] returns that [nil] before
    the append. *)
Lemma addAddress_present addr txid tx tx1 b raw (txns : list Hash) :
  addHashType addr hashUnlockHash tx = (None, tx1) ->
  tx1 !! "Addresses" = Some b ->
  b !! Marshal addr = Some raw ->
  Unmarshal raw = inr txns ->
  addAddress addr txid tx = (None, tx1).
Proof.
  intros E Hb Hk Hu. unfold addAddress. rewrite (andThen_ok _ _ _ _ E).
  rewrite Hb. unfold getObject. rewrite Hk, Hu.
  destruct (decide (None <> Some ErrNilEntry)); [reflexivity|].
  exfalso. auto.
Qed.

(** Any other outcome of the lookup is returned. *)
Lemma addAddress_undecodable addr txid tx tx1 b raw msg :
  addHashType addr hashUnlockHash tx = (None, tx1) ->
  tx1 !! "Addresses" = Some b ->
  b !! Marshal addr = Some raw ->
  Unmarshal (A := list Hash) raw = inl msg ->
  addAddress addr txid tx = (Some (encoding_error msg), tx1).
Proof.
  intros E Hb Hk Hu. unfold addAddress. rewrite (andThen_ok _ _ _ _ E).
  rewrite Hb. unfold getObject. rewrite Hk, Hu.
  destruct (decide (Some (encoding_error msg) <> Some ErrNilEntry)); [reflexivity|].
  exfalso. apply n. discriminate.
Qed.

(** *** Outputs *)

Ltac input_missing Hb Hk :=
  rewrite Hb; unfold getObject; rewrite Hk; reflexivity.

Lemma addSiacoinInput_missing outputID txid (tx : Tx) b :
  tx !! "SiacoinOutputs" = Some b ->
  b !! Marshal outputID = None ->
  addSiacoinInput outputID txid tx = (Some ErrNilEntry, tx).
Proof. intros Hb Hk. unfold addSiacoinInput. input_missing Hb Hk. Qed.

Lemma addSiafundInput_missing outputID txid (tx : Tx) b :
  tx !! "SiafundOutputs" = Some b ->
  b !! Marshal outputID = None ->
  addSiafundInput outputID txid tx = (Some ErrNilEntry, tx).
Proof. intros Hb Hk. unfold addSiafundInput. input_missing Hb Hk. Qed.

Ltac input_found Hs Hu Hp name :=
  unfold stored in Hs;
  match type of Hs with
  | match ?tx !! name with _ => _ end = _ =>
      destruct (tx !! name) as [b|] eqn:Hb; [|discriminate]
  end;
  unfold getObject; rewrite Hs, Hu; simpl;
  unfold store, putObject, Put; rewrite Hp; simpl;
  split; [reflexivity|];
  unfold stored; now rewrite !lookup_insert_eq.



(** *** Contracts *)

Lemma addFcRevision_found fcid txid (tx : Tx) raw fi :
  stored tx "FileContracts" (Marshal fcid) = Some raw ->
  Unmarshal raw = inr fi ->
  Put_refuses (Marshal fcid)
    (Marshal {| Contract := Contract fi; Revisions := Revisions fi ++ [txid];
                Proof := Proof fi |}) = None ->
  (addFcRevision fcid txid tx).1 = None /\
  stored (addFcRevision fcid txid tx).2 "FileContracts" (Marshal fcid)
    = Some (Marshal {| Contract := Contract fi; Revisions := Revisions fi ++ [txid];
                       Proof := Proof fi |}).
Proof. intros Hs Hu Hp. unfold addFcRevision. input_found Hs Hu Hp "FileContracts". Qed.

Lemma addFcProof_found fcid txid (tx : Tx) raw fi :
  stored tx "FileContracts" (Marshal fcid) = Some raw ->
  Unmarshal raw = inr fi ->
  Put_refuses (Marshal fcid)
    (Marshal {| Contract := Contract fi; Revisions := Revisions fi;
                Proof := txid |}) = None ->
  (addFcProof fcid txid tx).1 = None /\
  stored (addFcProof fcid txid tx).2 "FileContracts" (Marshal fcid)
    = Some (Marshal {| Contract := Contract fi; Revisions := Revisions fi;
                       Proof := txid |}).
Proof. intros Hs Hu Hp. unfold addFcProof. input_found Hs Hu Hp "FileContracts". Qed.

End Writers.

(** ** Output and contract records *)

Section Records.
Context {TY : Types} {BO : Bolt}.
Context `{!Encoding Hash} `{!Encoding BlockHeight} `{!Encoding hashType}.
Context `{!Encoding (list Hash)} `{!Encoding outputTransactions}.
Context `{!Encoding fcInfo} `{!Encoding blockData} `{!Encoding txInfo}.
Context `{!Encoding ExplorerBlockData} `{!Encoding Block.t}.

Lemma stored_insert_ne (tx : Tx) name (b : Bucket) k v key :
  tx !! name = Some b -> k <> key ->
  stored (<[name := <[k := v]> b]> tx) name key = stored tx name key.
Proof.
  intros Hb Hne. unfold stored. rewrite lookup_insert_eq, Hb.
  now rewrite lookup_insert_ne.
Qed.

Ltac rewrite_frame :=
  intros Hne tx;
  match goal with
  | |- context [?t !! ?n] => destruct (t !! n) as [?b|] eqn:?Hb; [|reflexivity]
  end;
  match goal with
  | |- context [getObject ?b ?k ?d] =>
      destruct (getObject b k d) as [[?e|] ?o]; [reflexivity|]
  end;
  unfold store, putObject, Put;
  match goal with
  | Hb : _ !! _ = Some _ |- context [Put_refuses ?k ?v] =>
      destruct (Put_refuses k v); simpl;
      [ unfold stored; rewrite lookup_insert_eq, Hb; reflexivity
      | apply stored_insert_ne; [assumption | congruence] ]
  end.

Lemma perform_frame u name key tx :
  target u <> (name, key) ->
  stored (perform u tx).2 name key = stored tx name key.
Proof.
  revert tx.
  assert (Hcoin : forall o t, ("SiacoinOutputs", Marshal o) <> (name, key) ->
            forall tx, stored (addSiacoinInput o t tx).2 name key = stored tx name key).
  { intros o t Hne tx. destruct (decide (name = "SiacoinOutputs")) as [->|Hn].
    - revert Hne tx. unfold addSiacoinInput. rewrite_frame.
    - apply preserves_stored. now apply preserves_addSiacoinInput. }
  assert (Hfund : forall o t, ("SiafundOutputs", Marshal o) <> (name, key) ->
            forall tx, stored (addSiafundInput o t tx).2 name key = stored tx name key).
  { intros o t Hne tx. destruct (decide (name = "SiafundOutputs")) as [->|Hn].
    - revert Hne tx. unfold addSiafundInput. rewrite_frame.
    - apply preserves_stored. now apply preserves_addSiafundInput. }
  assert (Hproof : forall o t, ("FileContracts", Marshal o) <> (name, key) ->
            forall tx, stored (addFcProof o t tx).2 name key = stored tx name key).
  { intros o t Hne tx. destruct (decide (name = "FileContracts")) as [->|Hn].
    - revert Hne tx. unfold addFcProof. rewrite_frame.
    - apply preserves_stored. now apply preserves_addFcProof. }
  intros tx Hne. destruct u; simpl in *; auto.
Qed.

Lemma performAll_frame us name key tx :
  Forall (fun u => target u <> (name, key)) us ->
  stored (performAll us tx).2 name key = stored tx name key.
Proof.
  unfold performAll, range. generalize 0. intros i Hall. revert i tx.
  induction Hall as [|u us Hu Hall IH]; intros i tx; simpl; [reflexivity|].
  unfold andThen. pose proof (perform_frame u name key tx Hu) as Hf.
  destruct (perform u tx) as [[e|] tx1]; simpl in *; [assumption|].
  now rewrite IH.
Qed.

(** What a successful update found and what it wrote. *)
Lemma perform_None_inv u tx tx1 :
  perform u tx = (None, tx1) ->
  exists creator revisions,
    stored tx1 (target u).1 (target u).2 = Some (written u creator revisions).
Proof.
  destruct u as [o t|o t|f t]; simpl.
  - unfold addSiacoinInput. destruct (tx !! "SiacoinOutputs") as [b|]; [|discriminate].
    destruct (getObject b o _) as [[e|] ot]; [discriminate|].
    intros E. apply store_None_inv in E as [_ ->].
    exists (OutputTx ot), []. unfold stored. now rewrite !lookup_insert_eq.
  - unfold addSiafundInput. destruct (tx !! "SiafundOutputs") as [b|]; [|discriminate].
    destruct (getObject b o _) as [[e|] ot]; [discriminate|].
    intros E. apply store_None_inv in E as [_ ->].
    exists (OutputTx ot), []. unfold stored. now rewrite !lookup_insert_eq.
  - unfold addFcProof. destruct (tx !! "FileContracts") as [b|]; [|discriminate].
    destruct (getObject b f _) as [[e|] fi]; [discriminate|].
    intros E. apply store_None_inv in E as [_ ->].
    exists (Contract fi), (Revisions fi). unfold stored. now rewrite !lookup_insert_eq.
Qed.

Lemma addFcRevision_None_inv fcid txid (tx tx1 : Tx) :
  addFcRevision fcid txid tx = (None, tx1) ->
  exists b raw fi,
    tx !! "FileContracts" = Some b /\ b !! Marshal fcid = Some raw /\
    Unmarshal raw = inr fi /\
    tx1 = <["FileContracts" :=
             <[Marshal fcid := Marshal {| Contract := Contract fi;
                                          Revisions := Revisions fi ++ [txid];
                                          Proof := Proof fi |}]> b]> tx.
Proof.
  unfold addFcRevision. destruct (tx !! "FileContracts") as [b|]; [|discriminate].
  unfold getObject. destruct (b !! Marshal fcid) as [raw|] eqn:Hk; [|discriminate].
  destruct (Unmarshal raw) as [msg|fi] eqn:Hu; [discriminate|].
  intros E. apply store_None_inv in E as [_ ->]. exists b, raw, fi. auto.
Qed.

Lemma reviseAll_from fcid ops i tx tx' raw fi :
  (forall x : fcInfo, Unmarshal (Marshal x) = inr x) ->
  stored tx "FileContracts" (Marshal fcid) = Some raw ->
  Unmarshal raw = inr fi ->
  rangeFrom i ops (fun _ op => addFcRevision op.1 op.2) tx = (None, tx') ->
  exists raw',
    stored tx' "FileContracts" (Marshal fcid) = Some raw' /\
    Unmarshal raw' = inr {| Contract := Contract fi;
                            Revisions := Revisions fi ++ revisionsOf fcid ops;
                            Proof := Proof fi |}.
Proof.
  intros Hrt. revert i tx raw fi.
  induction ops as [|[f t] ops IH]; intros i tx raw fi Hs Hu E; simpl in E.
  - inversion E; subst. exists raw. split; [assumption|].
    unfold revisionsOf. simpl. rewrite app_nil_r. now destruct fi.
  - apply andThen_None_inv in E as (tx1 & E1 & E2). simpl in E1.
    apply addFcRevision_None_inv in E1 as (b & raw1 & fi1 & Hb & Hk & Hu1 & ->).
    unfold revisionsOf. rewrite filter_cons. simpl.
    destruct (decide (Marshal f = Marshal fcid)) as [Heq|Hne].
    + assert (raw1 = raw /\ fi1 = fi) as [-> ->].
      { unfold stored in Hs. rewrite Hb, <- Heq, Hk in Hs. inversion Hs; subst.
        rewrite Hu1 in Hu. inversion Hu. auto. }
      match type of E2 with
      | rangeFrom _ _ _ ?tx1 = _ =>
          assert (Hs1 : stored tx1 "FileContracts" (Marshal fcid) =
                        Some (Marshal {| Contract := Contract fi;
                                         Revisions := Revisions fi ++ [t];
                                         Proof := Proof fi |}))
      end.
      { unfold stored. rewrite lookup_insert_eq, Heq, lookup_insert_eq. reflexivity. }
      destruct (IH (S i) _ _ _ Hs1 (Hrt _) E2) as (raw' & Hs' & Hu').
      exists raw'. split; [assumption|]. rewrite Hu'. simpl.
      now rewrite <- app_assoc.
    + refine (IH (S i) _ raw fi _ Hu E2).
      rewrite stored_insert_ne; auto.
Qed.


(** C6, as amended.  An input sets the spending id of the record it
    references to its own transaction id, and a storage proof sets the
    proof id of the contract it references; every later input or proof
    of a sequence that references another record leaves that record as
    it was stored.  So an id is set at most once over a sequence in which
    each record is referenced at most once. *)
Theorem set_once_if_referenced_once (u : update) (later : list update) (tx tx1 : Tx) :
  perform u tx = (None, tx1) ->
  Forall (fun u' => target u' <> target u) later ->
  (exists creator revisions,
     stored tx1 (target u).1 (target u).2 = Some (written u creator revisions)) /\
  stored (performAll later tx1).2 (target u).1 (target u).2
    = stored tx1 (target u).1 (target u).2.
Proof.
  intros Hu Hlater. split.
  - eapply perform_None_inv; eauto.
  - apply performAll_frame. eapply Forall_impl; [exact Hlater|].
    intros u' Hne. simpl in Hne. now destruct (target u).
Qed.

(** C7.  Revisions accumulate in arrival order: after any sequence of
    revisions that all succeed, the record of a contract has its revision
    list extended, at the end, by the transaction ids of the revisions
    that addressed it, in the order of the sequence; its creator and its
    proof id are those it had.  Records are read back by [Unmarshal]. *)
Theorem revisions_accumulate (fcid : Hash) (ops : list (Hash * Hash))
    (tx tx' : Tx) (raw : bytes) (fi : fcInfo) :
  (forall x : fcInfo, Unmarshal (Marshal x) = inr x) ->
  stored tx "FileContracts" (Marshal fcid) = Some raw ->
  Unmarshal raw = inr fi ->
  reviseAll ops tx = (None, tx') ->
  exists raw',
    stored tx' "FileContracts" (Marshal fcid) = Some raw' /\
    Unmarshal raw' = inr {| Contract := Contract fi;
                            Revisions := Revisions fi ++ revisionsOf fcid ops;
                            Proof := Proof fi |}.
Proof. intros Hrt Hs Hu E. eapply reviseAll_from; eauto. Qed.

Lemma respend_by_zero name (outputID txid : Hash) (tx0 : Tx) (b : Bucket) :
  let created := {| OutputTx := txid; InputTx := Hash_zero |} in
  let tx1 := <[name := <[Marshal outputID := Marshal created]> b]> tx0 in
  Put_refuses (Marshal outputID) (Marshal created) = None ->
  store name
    (putObject (<[Marshal outputID := Marshal created]> b) outputID created) tx1
  = (None, tx1).
Proof.
  intros created tx1 Hp. unfold store, putObject, Put. rewrite Hp. simpl.
  unfold tx1. now rewrite !insert_insert_eq.
Qed.

(** C10.  "Empty" is the zero hash.  [addNewOutput] and [addNewSFOutput]
    store (creator, zero hash); the loop body for a contract of a
    transaction stores (creator, no revisions, zero hash) under the
    contract's id.  An input whose transaction id is the zero hash, spending
    a fresh output, and a proof whose transaction id is the zero hash,
    proving a fresh contract, succeed and leave the transaction exactly
    as it was: the stored bytes do not tell an unspent output from one
    spent by the zero hash, nor an unproven contract from one proved by
    it. *)
Theorem empty_is_zero_hash :
  (forall outputID txid (tx tx1 : Tx),
     addNewOutput outputID txid tx = (None, tx1) ->
     stored tx1 "SiacoinOutputs" (Marshal outputID)
       = Some (Marshal {| OutputTx := txid; InputTx := Hash_zero |})) /\
  (forall outputID txid (tx tx1 : Tx),
     addNewSFOutput outputID txid tx = (None, tx1) ->
     stored tx1 "SiafundOutputs" (Marshal outputID)
       = Some (Marshal {| OutputTx := txid; InputTx := Hash_zero |})) /\
  (forall t i contract (tx tx1 : Tx),
     fileContract t i contract tx = (None, tx1) ->
     stored tx1 "FileContracts" (Marshal (Transaction_FileContractID t i))
       = Some (Marshal {| Contract := Transaction_ID t; Revisions := [];
                          Proof := Hash_zero |})) /\
  (forall outputID txid (tx tx1 : Tx),
     addNewOutput outputID txid tx = (None, tx1) ->
     Unmarshal (Marshal {| OutputTx := txid; InputTx := Hash_zero |})
       = inr {| OutputTx := txid; InputTx := Hash_zero |} ->
     addSiacoinInput outputID Hash_zero tx1 = (None, tx1)) /\
  (forall outputID txid (tx tx1 : Tx),
     addNewSFOutput outputID txid tx = (None, tx1) ->
     Unmarshal (Marshal {| OutputTx := txid; InputTx := Hash_zero |})
       = inr {| OutputTx := txid; InputTx := Hash_zero |} ->
     addSiafundInput outputID Hash_zero tx1 = (None, tx1)) /\
  (forall t i (tx tx1 : Tx),
     let fresh := {| Contract := Transaction_ID t; Revisions := [];
                     Proof := Hash_zero |} in
     addNewHash "FileContracts" hashFilecontract (Transaction_FileContractID t i)
       fresh tx = (None, tx1) ->
     Unmarshal (Marshal fresh) = inr fresh ->
     addFcProof (Transaction_FileContractID t i) Hash_zero tx1 = (None, tx1)).
Proof.
  repeat split.
  - intros. eapply addNewHash_stored; eauto.
  - intros. eapply addNewHash_stored; eauto.
  - intros t i contract tx tx1 E. unfold fileContract in E.
    apply andThen_None_inv in E as (tx0 & E0 & E1).
    apply addNewHash_stored in E0. rewrite <- E0.
    match type of E1 with ?rest tx0 = _ =>
      change tx1 with ((None : option error, tx1).2); rewrite <- E1;
      apply (preserves_stored "FileContracts" rest)
    end.
    solve_preserves.
  - intros outputID txid tx tx1 E Hrt.
    apply addNewHash_None_inv in E as (tx0 & b & _ & _ & Hp & ->).
    unfold addSiacoinInput. rewrite lookup_insert_eq.
    unfold getObject. rewrite lookup_insert_eq, Hrt. simpl.
    now apply respend_by_zero.
  - intros outputID txid tx tx1 E Hrt.
    apply addNewHash_None_inv in E as (tx0 & b & _ & _ & Hp & ->).
    unfold addSiafundInput. rewrite lookup_insert_eq.
    unfold getObject. rewrite lookup_insert_eq, Hrt. simpl.
    now apply respend_by_zero.
  - intros t i tx tx1 fresh E Hrt.
    apply addNewHash_None_inv in E as (tx0 & b & _ & _ & Hp & ->).
    unfold addFcProof. rewrite lookup_insert_eq.
    unfold getObject. rewrite lookup_insert_eq, Hrt. simpl.
    unfold store, putObject, Put. fold fresh. rewrite Hp. simpl.
    now rewrite !insert_insert_eq.
Qed.

End Records.

(** ** Indexing a block *)

Section Blocks.
Context {TY : Types} {BO : Bolt} {BU : Build}.
Context `{!Encoding Hash} `{!Encoding BlockHeight} `{!Encoding hashType}.
Context `{!Encoding (list Hash)} `{!Encoding outputTransactions}.
Context `{!Encoding fcInfo} `{!Encoding blockData} `{!Encoding txInfo}.
Context `{!Encoding ExplorerBlockData} `{!Encoding Block.t}.

Lemma addTransaction_keeps_Heights tx : preserves "Heights" (addTransaction tx).
Proof.
  unfold addTransaction, coinInputs, coinOutputs, fileContracts,
    fileContractRevisions, storageProofs, fundInputs, fundOutputs.
  repeat (solve_preserves;
          unfold fileContract, fileContractRevision, coinInput, fundInput).
Qed.

Lemma indexBlock_None_inv be b target tx d :
  indexBlock be b target tx = (None, d) ->
  exists t1 t2 t3 t4,
    addNewHash "Blocks" hashBlock (Block_ID b)
      {| bd_Block := b; bd_Height := blockchainHeight be |} tx = (None, t1) /\
    addHeight (blockchainHeight be)
      {| ebd_ID := Block_ID b; ebd_Timestamp := Block.Timestamp b;
         ebd_Target := target;
         ebd_Size := Z.of_nat (String.length (Marshal b)) |} t1 = (None, t2) /\
    addHashType (Block_ID b) hashBlock t2 = (None, t3) /\
    minerPayouts b t3 = (None, t4) /\
    range (Block.Transactions b) (indexTransaction b) t4 = (None, d).
Proof.
  unfold indexBlock, blockHeader. intros E.
  apply andThen_None_inv in E as (t3 & E & E3).
  apply andThen_None_inv in E as (t1 & E1 & E).
  apply andThen_None_inv in E as (t2 & E2 & E).
  apply andThen_None_inv in E3 as (t4 & E3 & E4).
  exists t1, t2, t3, t4. auto.
Qed.

Lemma addBlockDB_error be b :
  (addBlockDB be b).1 <> Return None -> (addBlockDB be b).2 = db be.
Proof.
  unfold addBlockDB, Begin, Commit, Rollback.
  destruct (blockTarget be b) as [msg|target]; [reflexivity|].
  destruct Begin_fails; [reflexivity|].
  destruct (indexBlock be b target (db be)) as [[e|] tx']; [reflexivity|].
  destruct (Commit_fails tx'); [reflexivity|]. simpl. congruence.
Qed.

Lemma addBlockDB_None_inv be b d :
  addBlockDB be b = (Return None, d) ->
  exists target,
    blockTarget be b = inr target /\ Begin_fails = None /\
    indexBlock be b target (db be) = (None, d) /\ Commit_fails d = None.
Proof.
  unfold addBlockDB, Begin, Commit, Rollback.
  destruct (blockTarget be b) as [msg|target]; [discriminate|].
  destruct Begin_fails; [discriminate|].
  destruct (indexBlock be b target (db be)) as [[e|] tx'] eqn:E; [discriminate|].
  destruct (Commit_fails tx') eqn:C; [discriminate|].
  intros H. inversion H; subst. exists target. auto.
Qed.

(** An error of the writes is the result of [addBlockDB], and the
    deferred rollback leaves the database as it was. *)
Lemma addBlockDB_indexBlock_error be b target e tx' :
  blockTarget be b = inr target ->
  Begin_fails = None ->
  indexBlock be b target (db be) = (Some e, tx') ->
  addBlockDB be b = (Return (Some e), db be).
Proof.
  intros Ht Hb E. unfold addBlockDB, Begin, Rollback. now rewrite Ht, Hb, E.
Qed.

(** X12.  Rollback on every error return.  Whenever [addBlockDB] does not
    return [nil] (it returns an error of [Begin], of one of its steps or
    of [Commit], or it panics), the committed database is the one before
    the call: an error returned by a step is returned by [addBlockDB] and
    nothing of the block is visible.  The database changes only when the
    call returns [nil], and then every step of [addBlockDB] returned
    [nil]: the block record, the height summary, the hash tag, the two
    writes for each payout, the locator and [addTransaction] for each
    transaction, in this order, and the commit of the buckets so reached
    succeeded.  What [addTransaction] itself does with the errors of its
    calls is another matter: see [revision_address_error_dropped]. *)
Lemma addBlockDB_rollback (be : BlockExplorer) (b : Block.t) :
  ((addBlockDB be b).1 <> Return None -> (addBlockDB be b).2 = db be) /\
  (forall target e tx',
     blockTarget be b = inr target -> Begin_fails = None ->
     indexBlock be b target (db be) = (Some e, tx') ->
     addBlockDB be b = (Return (Some e), db be)) /\
  (forall d, addBlockDB be b = (Return None, d) ->
     exists target t1 t2 t3 t4,
       blockTarget be b = inr target /\ Begin_fails = None /\
       addNewHash "Blocks" hashBlock (Block_ID b)
         {| bd_Block := b; bd_Height := blockchainHeight be |} (db be)
         = (None, t1) /\
       addHeight (blockchainHeight be)
         {| ebd_ID := Block_ID b; ebd_Timestamp := Block.Timestamp b;
            ebd_Target := target;
            ebd_Size := Z.of_nat (String.length (Marshal b)) |} t1
         = (None, t2) /\
       addHashType (Block_ID b) hashBlock t2 = (None, t3) /\
       minerPayouts b t3 = (None, t4) /\
       (forall i payout, Block.MinerPayouts b !! i = Some payout ->
          exists s s' s'',
            range (take i (Block.MinerPayouts b)) (fun i payout =>
              addAddress (SiacoinOutput.UnlockHash payout) (Block_ID b) >>
              addNewOutput (Block_MinerPayoutID b i) (Block_ID b)) t3 = (None, s) /\
            addAddress (SiacoinOutput.UnlockHash payout) (Block_ID b) s = (None, s') /\
            addNewOutput (Block_MinerPayoutID b i) (Block_ID b) s' = (None, s'')) /\
       range (Block.Transactions b) (indexTransaction b) t4 = (None, d) /\
       (forall k txn, Block.Transactions b !! k = Some txn ->
          exists s s' s'',
            range (take k (Block.Transactions b)) (indexTransaction b) t4 = (None, s) /\
            addNewHash "Transactions" hashTransaction (Transaction_ID txn)
              {| BlockID := Block_ID b; TxNum := k |} s = (None, s') /\
            addTransaction txn s' = (None, s'')) /\
       Commit_fails d = None).
Proof.
  split; [apply addBlockDB_error|]. split.
  - intros. eapply addBlockDB_indexBlock_error; eauto.
  - intros d E. apply addBlockDB_None_inv in E as (target & Ht & Hb & E & C).
    apply indexBlock_None_inv in E as (t1 & t2 & t3 & t4 & E1 & E2 & E3 & E4 & E5).
    exists target, t1, t2, t3, t4. repeat (split; [assumption|]).
    split; [|split; [assumption|split; [|assumption]]].
    + intros i payout Hi. unfold minerPayouts in E4.
      destruct (range_None_inv _ _ _ _ _ _ E4 Hi) as (s & s'' & Hs & Hbody).
      apply andThen_None_inv in Hbody as (s' & H1 & H2). eauto 6.
    + intros k txn Hk.
      destruct (range_None_inv _ _ _ _ _ _ E5 Hk) as (s & s'' & Hs & Hbody).
      unfold indexTransaction in Hbody.
      apply andThen_None_inv in Hbody as (s' & H1 & H2). eauto 6.
Qed.

(** An error of [addTransaction] on a transaction the loop reaches. *)
Lemma addBlockDB_transaction_error be b target k txn tx1 e tx2 :
  blockTarget be b = inr target ->
  Begin_fails = None ->
  Block.Transactions b !! k = Some txn ->
  uptoTransaction be b target k txn (db be) = (None, tx1) ->
  addTransaction txn tx1 = (Some e, tx2) ->
  addBlockDB be b = (Return (Some e), db be).
Proof.
  intros Ht Hb Hk Hup Htx.
  apply (addBlockDB_indexBlock_error be b target e tx2 Ht Hb).
  unfold uptoTransaction in Hup. unfold indexBlock.
  apply andThen_None_inv in Hup as (t3 & E1 & Hup).
  apply andThen_None_inv in Hup as (t4 & E2 & Hup).
  apply andThen_None_inv in Hup as (t5 & E3 & E4).
  rewrite (andThen_ok _ _ _ _ E1), (andThen_ok _ _ _ _ E2).
  apply (range_reach_err _ _ k txn t4 t5 e tx2 Hk E3).
  unfold indexTransaction. now rewrite (andThen_ok _ _ _ _ E4).
Qed.

Lemma addTransaction_coin_input_error txn j input tx1 tx2 e tx3 :
  Transaction.SiacoinInputs txn !! j = Some input ->
  uptoCoinInput txn j tx1 = (None, tx2) ->
  addSiacoinInput (SiacoinInput.ParentID input) (Transaction_ID txn) tx2 = (Some e, tx3) ->
  addTransaction txn tx1 = (Some e, tx3).
Proof.
  intros Hj Hup E. unfold addTransaction. apply andThen_err.
  unfold coinInputs. eapply range_reach_err; eauto.
Qed.

Lemma addTransaction_fund_input_error txn j input tx1 tx2 e tx3 :
  Transaction.SiafundInputs txn !! j = Some input ->
  uptoFundInput txn j tx1 = (None, tx2) ->
  addSiafundInput (SiafundInput.ParentID input) (Transaction_ID txn) tx2 = (Some e, tx3) ->
  addTransaction txn tx1 = (Some e, tx3).
Proof.
  intros Hj Hup E. unfold addTransaction. unfold uptoFundInput in Hup.
  apply andThen_None_inv in Hup as (s1 & E1 & Hup).
  apply andThen_None_inv in Hup as (s2 & E2 & Hup).
  apply andThen_None_inv in Hup as (s3 & E3 & Hup).
  apply andThen_None_inv in Hup as (s4 & E4 & Hup).
  apply andThen_None_inv in Hup as (s5 & E5 & E6).
  rewrite (andThen_ok _ _ _ _ E1), (andThen_ok _ _ _ _ E2),
    (andThen_ok _ _ _ _ E3), (andThen_ok _ _ _ _ E4), (andThen_ok _ _ _ _ E5).
  apply andThen_err. unfold fundInputs. eapply range_reach_err; eauto.
Qed.

(** C5.  A transaction of a block with a coin input, or a fund input,
    whose output id has no record when the input is processed:
    [addSiacoinInput] (or [addSiafundInput]) returns [ErrNilEntry] and
    writes nothing, [addTransaction] returns that error, and [addBlockDB]
    returns it and leaves the committed database as it was. *)
Theorem missing_output_aborts_block (be : BlockExplorer) (b : Block.t)
    (target : Target) (k : nat) (txn : Transaction.t) (j : nat)
    (tx1 tx2 : Tx) (bkt : Bucket) :
  blockTarget be b = inr target ->
  Begin_fails = None ->
  Block.Transactions b !! k = Some txn ->
  uptoTransaction be b target k txn (db be) = (None, tx1) ->
  (forall input,
     Transaction.SiacoinInputs txn !! j = Some input ->
     uptoCoinInput txn j tx1 = (None, tx2) ->
     tx2 !! "SiacoinOutputs" = Some bkt ->
     bkt !! Marshal (SiacoinInput.ParentID input) = None ->
     addSiacoinInput (SiacoinInput.ParentID input) (Transaction_ID txn) tx2
       = (Some ErrNilEntry, tx2) /\
     addTransaction txn tx1 = (Some ErrNilEntry, tx2) /\
     addBlockDB be b = (Return (Some ErrNilEntry), db be)) /\
  (forall input,
     Transaction.SiafundInputs txn !! j = Some input ->
     uptoFundInput txn j tx1 = (None, tx2) ->
     tx2 !! "SiafundOutputs" = Some bkt ->
     bkt !! Marshal (SiafundInput.ParentID input) = None ->
     addSiafundInput (SiafundInput.ParentID input) (Transaction_ID txn) tx2
       = (Some ErrNilEntry, tx2) /\
     addTransaction txn tx1 = (Some ErrNilEntry, tx2) /\
     addBlockDB be b = (Return (Some ErrNilEntry), db be)).
Proof.
  intros Ht Hb Hk Hup. split; intros input Hj Hin Hbkt Hnone.
  - pose proof (addSiacoinInput_missing _ (Transaction_ID txn) _ _ Hbkt Hnone) as E.
    split; [exact E|].
    pose proof (addTransaction_coin_input_error _ _ _ _ _ _ _ Hj Hin E) as Etx.
    split; [exact Etx|].
    eapply addBlockDB_transaction_error; eauto.
  - pose proof (addSiafundInput_missing _ (Transaction_ID txn) _ _ Hbkt Hnone) as E.
    split; [exact E|].
    pose proof (addTransaction_fund_input_error _ _ _ _ _ _ _ Hj Hin E) as Etx.
    split; [exact Etx|].
    eapply addBlockDB_transaction_error; eauto.
Qed.

Lemma blockTarget_genesis be b :
  Block_ID b = genesisBlockID be -> blockTarget be b = inr RootDepth.
Proof.
  intros Hg. unfold blockTarget.
  destruct (decide (Block_ID b = genesisBlockID be)); [reflexivity|contradiction].
Qed.

(** C8.  For the genesis block the target is [RootDepth] without a call
    of [ChildTarget]: the outcome of [addBlockDB] is the same whatever
    the consensus set answers, and when the block is indexed the summary
    stored under its height has [RootDepth] as its target. *)
Theorem genesis_records_RootDepth (be : BlockExplorer) (b : Block.t) :
  Block_ID b = genesisBlockID be ->
  blockTarget be b = inr RootDepth /\
  (forall cs',
     addBlockDB {| db := db be; cs := cs';
                   blockchainHeight := blockchainHeight be;
                   genesisBlockID := genesisBlockID be |} b
     = addBlockDB be b) /\
  (forall d, addBlockDB be b = (Return None, d) ->
     stored d "Heights" (Marshal (blockchainHeight be))
     = Some (Marshal {| ebd_ID := Block_ID b;
                        ebd_Timestamp := Block.Timestamp b;
                        ebd_Target := RootDepth;
                        ebd_Size := Z.of_nat (String.length (Marshal b)) |})).
Proof.
  intros Hg. split; [now apply blockTarget_genesis|]. split.
  - intros cs'. unfold addBlockDB.
    rewrite !blockTarget_genesis by assumption. reflexivity.
  - intros d E. apply addBlockDB_None_inv in E as (target & Ht & _ & E & _).
    rewrite blockTarget_genesis in Ht by assumption. inversion Ht; subst target.
    apply indexBlock_None_inv in E as (t1 & t2 & t3 & t4 & _ & E2 & E3 & E4 & E5).
    assert (H2 : stored t2 "Heights" (Marshal (blockchainHeight be))
                 = Some (Marshal {| ebd_ID := Block_ID b;
                        ebd_Timestamp := Block.Timestamp b;
                        ebd_Target := RootDepth;
                        ebd_Size := Z.of_nat (String.length (Marshal b)) |})).
    { unfold addHeight in E2. destruct (t1 !! "Heights") as [h|]; [|discriminate].
      apply store_None_inv in E2 as [_ ->]. unfold stored.
      now rewrite !lookup_insert_eq. }
    rewrite <- H2.
    change d with ((None : option error, d).2). rewrite <- E5.
    rewrite preserves_stored.
    2:{ apply preserves_range. intros i txn. unfold indexTransaction.
        apply preserves_andThen; [solve_preserves|apply addTransaction_keeps_Heights]. }
    change t4 with ((None : option error, t4).2). rewrite <- E4.
    rewrite preserves_stored by (unfold minerPayouts; solve_preserves).
    change t3 with ((None : option error, t3).2). rewrite <- E3.
    now rewrite preserves_stored by solve_preserves.
Qed.

(** In a debug build a block whose parent the consensus set does not
    know makes [addBlockDB] panic, in a testing release as in any other:
    the test on [exists] follows the assignment of [RootDepth] and is not
    an alternative to it. *)
Lemma debug_unknown_parent_panics be b :
  DEBUG = true ->
  Block_ID b <> genesisBlockID be ->
  (ChildTarget (cs be) (Block.ParentID b)).2 = false ->
  addBlockDB be b = (Panic "Applied block not in consensus", db be).
Proof.
  intros Hd Hg He. unfold addBlockDB, blockTarget.
  destruct (decide (Block_ID b = genesisBlockID be)); [contradiction|].
  destruct (ChildTarget (cs be) (Block.ParentID b)) as [t ex]. simpl in He.
  subst ex. now rewrite Hd.
Qed.

(** The result of the call of line 351 is dropped: whatever [addAddress]
    returns there, the loop body returns [nil]. *)
Lemma revision_address_error_dropped tx revision t0 t1 :
  uptoRevisionAddress tx revision t0 = (None, t1) ->
  fileContractRevision tx revision t0 =
    (None, (addAddress (FileContractRevision.NewUnlockHash revision)
              (Transaction_ID tx) t1).2).
Proof.
  unfold uptoRevisionAddress, fileContractRevision. intros E.
  apply andThen_None_inv in E as (s1 & E1 & E).
  apply andThen_None_inv in E as (s2 & E2 & E3).
  now rewrite (andThen_ok _ _ _ _ E1), (andThen_ok _ _ _ _ E2),
    (andThen_ok _ _ _ _ E3).
Qed.

End Blocks.

(** ** Further properties of the writers *)

Section WriterProperties.
Context {TY : Types} {BO : Bolt}.
Context `{!Encoding Hash} `{!Encoding BlockHeight} `{!Encoding hashType}.
Context `{!Encoding (list Hash)} `{!Encoding outputTransactions}.
Context `{!Encoding fcInfo} `{!Encoding blockData} `{!Encoding txInfo}.
Context `{!Encoding ExplorerBlockData} `{!Encoding Block.t}.

(** [getObject] returns [ErrNilEntry] exactly for a key the bucket does
    not hold, and then leaves the caller's variable alone. *)
Lemma getObject_ErrNilEntry {K A} `{!Encoding K} `{!Encoding A}
    (b : Bucket) (key : K) (obj : A) :
  ((getObject b key obj).1 = Some ErrNilEntry <-> b !! Marshal key = None) /\
  (b !! Marshal key = None -> getObject b key obj = (Some ErrNilEntry, obj)).
Proof.
  unfold getObject. destruct (b !! Marshal key) as [raw|]; [|tauto].
  destruct (Unmarshal raw); simpl; split; try split; congruence.
Qed.

(** X1.  Round trip of [putObject] and [getObject]: an object put under a key
    is the object got under that key, whatever the bucket held there, and
    the result of [getObject] under a key with other bytes is not
    affected.  [Unmarshal] must read the object back. *)
Theorem putObject_getObject {K V} `{!Encoding K} `{!Encoding V}
    (b b' : Bucket) (key : K) (val obj : V) :
  putObject b key val = (None, b') ->
  Unmarshal (Marshal val) = inr val ->
  getObject b' key obj = (None, val) /\
  (forall (key' : K) (obj' : V), Marshal key' <> Marshal key ->
     getObject b' key' obj' = getObject b key' obj').
Proof.
  intros E Hrt. apply Put_None_inv in E as [_ ->]. split.
  - unfold getObject. now rewrite lookup_insert_eq, Hrt.
  - intros key' obj' Hne. unfold getObject. rewrite lookup_insert_ne; auto.
Qed.

Lemma addHashType_None_inv hash t (tx tx1 : Tx) :
  addHashType hash t tx = (None, tx1) ->
  exists h,
    tx !! "Hashes" = Some h /\
    Put_refuses (Marshal hash) (Marshal t) = None /\
    tx1 = <["Hashes" := <[Marshal hash := Marshal t]> h]> tx.
Proof.
  unfold addHashType. destruct (tx !! "Hashes") as [h|]; [|discriminate].
  intros E. apply store_None_inv in E as [? ?]. eauto.
Qed.

(** X2.  The hash registry overwrites: when a hash is tagged twice, the tag
    stored is the second one, whatever the first was; the tags of the
    other hashes and the other buckets are as before the two calls. *)
Theorem addHashType_last_wins (hash : Hash) (t1 t2 : hashType) (tx tx1 tx2 : Tx) :
  addHashType hash t1 tx = (None, tx1) ->
  addHashType hash t2 tx1 = (None, tx2) ->
  stored tx2 "Hashes" (Marshal hash) = Some (Marshal t2) /\
  (forall key, key <> Marshal hash ->
     stored tx2 "Hashes" key = stored tx "Hashes" key) /\
  (forall name, name <> "Hashes" -> tx2 !! name = tx !! name).
Proof.
  intros E1 E2.
  apply addHashType_None_inv in E1 as (h & Hh & _ & ->).
  apply addHashType_None_inv in E2 as (h' & Hh' & _ & ->).
  rewrite lookup_insert_eq in Hh'. inversion Hh'; subst h'.
  repeat split.
  - unfold stored. now rewrite !lookup_insert_eq.
  - intros key Hne. unfold stored. rewrite lookup_insert_eq, Hh.
    now rewrite !lookup_insert_ne by auto.
  - intros name Hne. now rewrite !lookup_insert_ne by auto.
Qed.

(** X3.  The first reference to an address, in a transaction that has the
    buckets "Hashes" and "Addresses" and whose writes bolt accepts:
    [addAddress] returns [nil], tags the address and binds it to the
    one-element list of the transaction id; nothing else changes. *)
Theorem addAddress_first_reference (addr txid : Hash) (tx : Tx)
    (hashes addresses : Bucket) :
  tx !! "Hashes" = Some hashes ->
  tx !! "Addresses" = Some addresses ->
  addresses !! Marshal addr = None ->
  Put_refuses (Marshal addr) (Marshal hashUnlockHash) = None ->
  Put_refuses (Marshal addr) (Marshal [txid]) = None ->
  addAddress addr txid tx =
    (None,
     <["Addresses" := <[Marshal addr := Marshal [txid]]> addresses]>
       (<["Hashes" := <[Marshal addr := Marshal hashUnlockHash]> hashes]> tx)).
Proof.
  intros Hh Ha Hk Hp1 Hp2.
  assert (E : addHashType addr hashUnlockHash tx =
              (None, <["Hashes" := <[Marshal addr := Marshal hashUnlockHash]> hashes]> tx)).
  { unfold addHashType, store, putObject, Put. now rewrite Hh, Hp1. }
  rewrite (addAddress_absent addr txid tx _ addresses E).
  - unfold store, putObject, Put. now rewrite Hp2.
  - rewrite lookup_insert_ne by discriminate. exact Ha.
  - exact Hk.
Qed.

Lemma addAddress_None_inv addr txid (tx tx2 : Tx) :
  addAddress addr txid tx = (None, tx2) ->
  exists tx1 b,
    addHashType addr hashUnlockHash tx = (None, tx1) /\
    tx1 !! "Addresses" = Some b /\
    ((b !! Marshal addr = None /\
      tx2 = <["Addresses" := <[Marshal addr := Marshal [txid]]> b]> tx1) \/
     (exists raw (txns : list Hash),
        b !! Marshal addr = Some raw /\ Unmarshal raw = inr txns /\ tx2 = tx1)).
Proof.
  unfold addAddress. intros E. apply andThen_None_inv in E as (tx1 & E1 & E2).
  exists tx1. destruct (tx1 !! "Addresses") as [b|] eqn:Hb; [|discriminate].
  exists b. split; [assumption|]. split; [reflexivity|].
  unfold getObject in E2. destruct (b !! Marshal addr) as [raw|] eqn:Hk.
  - destruct (Unmarshal raw) as [msg|txns] eqn:Hu.
    + destruct (decide (Some (encoding_error msg) <> Some ErrNilEntry)); [discriminate|].
      exfalso. apply n. discriminate.
    + destruct (decide (None <> Some ErrNilEntry)) as [_|n]; [|exfalso; auto].
      right. exists raw, txns. inversion E2. auto.
  - destruct (decide (Some ErrNilEntry <> Some ErrNilEntry)); [congruence|].
    left. apply store_None_inv in E2 as [_ ->]. auto.
Qed.

Lemma referenceAll_keeps addr txids i (tx tx' : Tx) raw (txns : list Hash) :
  stored tx "Addresses" (Marshal addr) = Some raw ->
  Unmarshal raw = inr txns ->
  rangeFrom i txids (fun _ txid => addAddress addr txid) tx = (None, tx') ->
  tx' !! "Addresses" = tx !! "Addresses".
Proof.
  revert i tx. induction txids as [|t txids IH]; intros i tx Hs Hu E; simpl in E.
  - now inversion E.
  - apply andThen_None_inv in E as (tx2 & E1 & E2).
    apply addAddress_None_inv in E1 as (tx1 & b & Eh & Hb & Hcase).
    assert (Hfr : tx1 !! "Addresses" = tx !! "Addresses").
    { change tx1 with ((None : option error, tx1).2). rewrite <- Eh.
      apply preserves_addHashType. discriminate. }
    assert (Hk : b !! Marshal addr = Some raw).
    { unfold stored in Hs. rewrite <- Hfr, Hb in Hs. exact Hs. }
    destruct Hcase as [[Hnone _]|(raw' & txns' & _ & _ & ->)]; [congruence|].
    rewrite <- Hfr. apply (IH (S i) tx1); [|assumption|assumption].
    unfold stored. now rewrite Hb.
Qed.

(** X4.  An address list is written once.  When an address with no entry is
    referenced by [first] and then by the ids of [rest], and every call
    returns [nil], the list stored for the address is the one-element
    list of [first]: the later references are not appended.  [Unmarshal]
    must read that list back. *)
Theorem address_list_keeps_first_reference (addr first : Hash) (rest : list Hash)
    (tx tx' : Tx) (addresses : Bucket) :
  tx !! "Addresses" = Some addresses ->
  addresses !! Marshal addr = None ->
  Unmarshal (Marshal [first]) = inr [first] ->
  referenceAll addr (first :: rest) tx = (None, tx') ->
  stored tx' "Addresses" (Marshal addr) = Some (Marshal [first]).
Proof.
  intros Ha Hk Hrt E. unfold referenceAll, range in E. simpl in E.
  apply andThen_None_inv in E as (tx2 & E1 & E2).
  apply addAddress_None_inv in E1 as (tx1 & b & Eh & Hb & Hcase).
  assert (Hfr : tx1 !! "Addresses" = tx !! "Addresses").
  { change tx1 with ((None : option error, tx1).2). rewrite <- Eh.
    apply preserves_addHashType. discriminate. }
  rewrite Hb, Ha in Hfr. inversion Hfr; subst b.
  destruct Hcase as [[_ ->]|(raw & txns & Hk' & _)]; [|congruence].
  assert (Hs : stored (<["Addresses" := <[Marshal addr := Marshal [first]]> addresses]> tx1)
                 "Addresses" (Marshal addr) = Some (Marshal [first])).
  { unfold stored. now rewrite !lookup_insert_eq. }
  unfold stored. rewrite (referenceAll_keeps _ _ _ _ _ _ _ Hs Hrt E2).
  exact Hs.
Qed.

(** X5.  [addNewHash] with a bucket other than "Hashes": after a [nil]
    return the hash is tagged with [t] and bound to the value in the
    bucket, whatever was stored for it before (no test for an existing
    key), and every other entry of the transaction is as before. *)
Theorem addNewHash_overwrites {V} `{!Encoding V} (bucketName : string) (t : hashType)
    (hash : Hash) (value : V) (tx tx' : Tx) :
  bucketName <> "Hashes" ->
  addNewHash bucketName t hash value tx = (None, tx') ->
  stored tx' "Hashes" (Marshal hash) = Some (Marshal t) /\
  stored tx' bucketName (Marshal hash) = Some (Marshal value) /\
  (forall name key,
     (name, key) <> ("Hashes", Marshal hash) ->
     (name, key) <> (bucketName, Marshal hash) ->
     stored tx' name key = stored tx name key).
Proof.
  intros Hne E. apply addNewHash_None_inv in E as (tx1 & b & Eh & Hb & _ & ->).
  apply addHashType_None_inv in Eh as (h & Hh & _ & ->).
  rewrite lookup_insert_ne in Hb by auto.
  repeat split.
  - unfold stored. rewrite lookup_insert_ne by auto. now rewrite !lookup_insert_eq.
  - unfold stored. now rewrite !lookup_insert_eq.
  - intros name key H1 H2. unfold stored.
    destruct (decide (name = bucketName)) as [->|Hn1].
    + rewrite lookup_insert_eq, Hb. rewrite lookup_insert_ne; [reflexivity|congruence].
    + rewrite lookup_insert_ne by auto.
      destruct (decide (name = "Hashes")) as [->|Hn2].
      * rewrite lookup_insert_eq, Hh. rewrite lookup_insert_ne; [reflexivity|congruence].
      * now rewrite lookup_insert_ne by auto.
Qed.

End WriterProperties.

(** ** Runs of updates: the creator stays, the last id wins *)

Section UpdateProperties.
Context {TY : Types} {BO : Bolt}.
Context `{!Encoding Hash} `{!Encoding BlockHeight} `{!Encoding hashType}.
Context `{!Encoding (list Hash)} `{!Encoding outputTransactions}.
Context `{!Encoding fcInfo} `{!Encoding blockData} `{!Encoding txInfo}.
Context `{!Encoding ExplorerBlockData} `{!Encoding Block.t}.

(** What a successful update read and what it stored. *)
Lemma perform_step u (tx tx1 : Tx) :
  perform u tx = (None, tx1) ->
  match u with
  | SpendCoin _ txid | SpendFund _ txid =>
      exists raw ot,
        stored tx (target u).1 (target u).2 = Some raw /\
        Unmarshal raw = inr ot /\
        stored tx1 (target u).1 (target u).2
          = Some (Marshal {| OutputTx := OutputTx ot; InputTx := txid |})
  | Prove _ txid =>
      exists raw fi,
        stored tx (target u).1 (target u).2 = Some raw /\
        Unmarshal raw = inr fi /\
        stored tx1 (target u).1 (target u).2
          = Some (Marshal {| Contract := Contract fi; Revisions := Revisions fi;
                             Proof := txid |})
  end.
Proof.
  destruct u as [o t|o t|f t]; simpl.
  - unfold addSiacoinInput, stored.
    destruct (tx !! "SiacoinOutputs") as [b|]; [|discriminate].
    unfold getObject. destruct (b !! Marshal o) as [raw|]; [|discriminate].
    destruct (Unmarshal raw) as [msg|ot] eqn:Hu; [discriminate|].
    intros E. apply store_None_inv in E as [_ ->]. exists raw, ot.
    now rewrite !lookup_insert_eq.
  - unfold addSiafundInput, stored.
    destruct (tx !! "SiafundOutputs") as [b|]; [|discriminate].
    unfold getObject. destruct (b !! Marshal o) as [raw|]; [|discriminate].
    destruct (Unmarshal raw) as [msg|ot] eqn:Hu; [discriminate|].
    intros E. apply store_None_inv in E as [_ ->]. exists raw, ot.
    now rewrite !lookup_insert_eq.
  - unfold addFcProof, stored.
    destruct (tx !! "FileContracts") as [b|]; [|discriminate].
    unfold getObject. destruct (b !! Marshal f) as [raw|]; [|discriminate].
    destruct (Unmarshal raw) as [msg|fi] eqn:Hu; [discriminate|].
    intros E. apply store_None_inv in E as [_ ->]. exists raw, fi.
    now rewrite !lookup_insert_eq.
Qed.

Lemma performAll_output name key us i (tx tx' : Tx) raw ot :
  name = "SiacoinOutputs" \/ name = "SiafundOutputs" ->
  (forall x : outputTransactions, Unmarshal (Marshal x) = inr x) ->
  stored tx name key = Some raw ->
  Unmarshal raw = inr ot ->
  rangeFrom i us (fun _ u => perform u) tx = (None, tx') ->
  exists raw',
    stored tx' name key = Some raw' /\
    Unmarshal raw' = inr {| OutputTx := OutputTx ot;
                            InputTx := lastSet name key (InputTx ot) us |}.
Proof.
  intros Hname Hrt. revert i tx raw ot.
  induction us as [|u us IH]; intros i tx raw ot Hs Hu E; simpl in E.
  - inversion E; subst. exists raw. split; [assumption|]. simpl. now destruct ot.
  - apply andThen_None_inv in E as (tx1 & E1 & E2).
    unfold lastSet. simpl. fold (lastSet name key).
    destruct (decide (target u = (name, key))) as [Ht|Ht].
    + pose proof (perform_step u tx tx1 E1) as Hstep.
      destruct u as [o t|o t|f t]; simpl in Ht, Hstep;
        try (exfalso; destruct Hname; subst name; discriminate Ht).
      * destruct Hstep as (raw0 & ot0 & Hs0 & Hu0 & Hs1).
        inversion Ht; subst name key. rewrite Hs in Hs0. inversion Hs0; subst raw0.
        rewrite Hu in Hu0. inversion Hu0; subst ot0.
        destruct (IH (S i) tx1 _ _ Hs1 (Hrt _) E2) as (raw' & Hs' & Hu').
        exists raw'. auto.
      * destruct Hstep as (raw0 & ot0 & Hs0 & Hu0 & Hs1).
        inversion Ht; subst name key. rewrite Hs in Hs0. inversion Hs0; subst raw0.
        rewrite Hu in Hu0. inversion Hu0; subst ot0.
        destruct (IH (S i) tx1 _ _ Hs1 (Hrt _) E2) as (raw' & Hs' & Hu').
        exists raw'. auto.
    + apply (IH (S i) tx1 raw ot); [|assumption|assumption].
      change tx1 with ((None : option error, tx1).2). rewrite <- E1.
      rewrite perform_frame; auto.
Qed.

Lemma performAll_contract key us i (tx tx' : Tx) raw fi :
  (forall x : fcInfo, Unmarshal (Marshal x) = inr x) ->
  stored tx "FileContracts" key = Some raw ->
  Unmarshal raw = inr fi ->
  rangeFrom i us (fun _ u => perform u) tx = (None, tx') ->
  exists raw',
    stored tx' "FileContracts" key = Some raw' /\
    Unmarshal raw' = inr {| Contract := Contract fi; Revisions := Revisions fi;
                            Proof := lastSet "FileContracts" key (Proof fi) us |}.
Proof.
  intros Hrt. revert i tx raw fi.
  induction us as [|u us IH]; intros i tx raw fi Hs Hu E; simpl in E.
  - inversion E; subst. exists raw. split; [assumption|]. simpl. now destruct fi.
  - apply andThen_None_inv in E as (tx1 & E1 & E2).
    unfold lastSet. simpl. fold (lastSet "FileContracts" key).
    destruct (decide (target u = ("FileContracts", key))) as [Ht|Ht].
    + pose proof (perform_step u tx tx1 E1) as Hstep.
      destruct u as [o t|o t|f t]; simpl in Ht, Hstep; try discriminate Ht.
      destruct Hstep as (raw0 & fi0 & Hs0 & Hu0 & Hs1).
      inversion Ht; subst key. rewrite Hs in Hs0. inversion Hs0; subst raw0.
      rewrite Hu in Hu0. inversion Hu0; subst fi0.
      destruct (IH (S i) tx1 _ _ Hs1 (Hrt _) E2) as (raw' & Hs' & Hu').
      exists raw'. auto.
    + apply (IH (S i) tx1 raw fi); [|assumption|assumption].
      change tx1 with ((None : option error, tx1).2). rewrite <- E1.
      rewrite perform_frame; auto.
Qed.

(** X6.  Over any run of inputs and storage proofs that all succeed, a
    record keeps its creator, and a contract its revision list; the
    spending id of an output record, and the proof id of a contract
    record, is the transaction id of the last update of the run that
    addressed the record, or the id it had when none did.  The records
    are read back by [Unmarshal]. *)
Theorem performAll_last_wins (us : list update) (tx tx' : Tx) :
  (forall x : outputTransactions, Unmarshal (Marshal x) = inr x) ->
  (forall x : fcInfo, Unmarshal (Marshal x) = inr x) ->
  performAll us tx = (None, tx') ->
  (forall name key raw ot,
     name = "SiacoinOutputs" \/ name = "SiafundOutputs" ->
     stored tx name key = Some raw -> Unmarshal raw = inr ot ->
     exists raw',
       stored tx' name key = Some raw' /\
       Unmarshal raw' = inr {| OutputTx := OutputTx ot;
                               InputTx := lastSet name key (InputTx ot) us |}) /\
  (forall key raw fi,
     stored tx "FileContracts" key = Some raw -> Unmarshal raw = inr fi ->
     exists raw',
       stored tx' "FileContracts" key = Some raw' /\
       Unmarshal raw' = inr {| Contract := Contract fi; Revisions := Revisions fi;
                               Proof := lastSet "FileContracts" key (Proof fi) us |}).
Proof.
  intros Hot Hfi E. split.
  - intros name key raw ot Hname Hs Hu. eapply performAll_output; eauto.
  - intros key raw fi Hs Hu. eapply performAll_contract; eauto.
Qed.

End UpdateProperties.

(** ** Invariants of the writers and of their compositions *)

Lemma keeps_entries_refl (tx : Tx) : keeps_entries tx tx.
Proof. split; auto. Qed.

Lemma keeps_entries_trans (tx1 tx2 tx3 : Tx) :
  keeps_entries tx1 tx2 -> keeps_entries tx2 tx3 -> keeps_entries tx1 tx3.
Proof. intros [D1 K1] [D2 K2]. split; [congruence|auto]. Qed.

Lemma keeps_done : keeps done_.
Proof. intros tx. apply keeps_entries_refl. Qed.

Lemma keeps_andThen (a b : action) : keeps a -> keeps b -> keeps (a >> b).
Proof.
  intros Ha Hb tx. unfold andThen. specialize (Ha tx).
  destruct (a tx) as [[e|] tx1]; simpl in *; [assumption|].
  eapply keeps_entries_trans; eauto.
Qed.

Lemma keeps_range {A} (l : list A) body :
  (forall j x, keeps (body j x)) -> keeps (range l body).
Proof.
  intros Hb. unfold range. generalize 0.
  induction l as [|x l IH]; intros i; simpl.
  - apply keeps_done.
  - apply keeps_andThen; [apply Hb | apply IH].
Qed.

Lemma keeps_discard (a : action) : keeps a -> keeps (discard a).
Proof. intros Ha tx. apply Ha. Qed.

Lemma never_done : never_ErrNilEntry done_.
Proof. intros tx. discriminate. Qed.

Lemma never_andThen (a b : action) :
  never_ErrNilEntry a -> never_ErrNilEntry b -> never_ErrNilEntry (a >> b).
Proof.
  intros Ha Hb tx. unfold andThen. specialize (Ha tx).
  destruct (a tx) as [[e|] tx1]; simpl in *; [assumption|apply Hb].
Qed.

Lemma never_rangeFrom {A} (l : list A) body i :
  Forall (fun x => forall j, never_ErrNilEntry (body j x)) l ->
  never_ErrNilEntry (rangeFrom i l body).
Proof.
  intros Hall. revert i. induction Hall as [|x l Hx Hall IH]; intros i; simpl.
  - apply never_done.
  - apply never_andThen; [apply Hx | apply IH].
Qed.

Lemma never_range {A} (l : list A) body :
  (forall j x, never_ErrNilEntry (body j x)) -> never_ErrNilEntry (range l body).
Proof. intros Hb. apply never_rangeFrom, Forall_forall. auto. Qed.

Lemma never_discard (a : action) : never_ErrNilEntry (discard a).
Proof. intros tx. discriminate. Qed.

Lemma keeps_value_preserves name key v (a : action) :
  preserves name a -> keeps_value name key v a.
Proof. intros Ha tx Hs. now rewrite preserves_stored. Qed.

Lemma keeps_value_andThen name key v (a b : action) :
  keeps_value name key v a -> keeps_value name key v b ->
  keeps_value name key v (a >> b).
Proof.
  intros Ha Hb tx Hs. unfold andThen. specialize (Ha tx Hs).
  destruct (a tx) as [[e|] tx1]; simpl in *; [assumption|auto].
Qed.

Lemma keeps_value_rangeFrom {A} name key v (l : list A) body i :
  (forall j x, keeps_value name key v (body j x)) ->
  keeps_value name key v (rangeFrom i l body).
Proof.
  intros Hb. revert i. induction l as [|x l IH]; intros i; simpl.
  - now intros tx Hs.
  - apply keeps_value_andThen; [apply Hb | apply IH].
Qed.

Lemma keeps_value_range {A} name key v (l : list A) body :
  (forall j x, keeps_value name key v (body j x)) ->
  keeps_value name key v (range l body).
Proof. apply keeps_value_rangeFrom. Qed.

Lemma keeps_value_discard name key v (a : action) :
  keeps_value name key v a -> keeps_value name key v (discard a).
Proof. intros Ha tx Hs. apply Ha, Hs. Qed.

(** A loop that returns [nil], cut at an element: the elements before
    it, the body on it, the elements after it. *)
Lemma range_split_inv {A} (l : list A) body tx tx' k x :
  range l body tx = (None, tx') ->
  l !! k = Some x ->
  exists s s',
    range (take k l) body tx = (None, s) /\
    body k x s = (None, s') /\
    rangeFrom (S k) (drop (S k) l) body s' = (None, tx').
Proof.
  intros E Hk. unfold range in *.
  rewrite <- (take_drop_middle l k x Hk), rangeFrom_app in E.
  apply andThen_None_inv in E as (s & E1 & E2). simpl in E2.
  apply andThen_None_inv in E2 as (s' & E2 & E3).
  rewrite length_take_le in E2, E3
    by (apply Nat.lt_le_incl; eapply lookup_lt_Some; eauto).
  simpl in E2, E3. eauto.
Qed.

Section Invariants.
Context {TY : Types} {BO : Bolt}.
Context `{!Encoding Hash} `{!Encoding BlockHeight} `{!Encoding hashType}.
Context `{!Encoding (list Hash)} `{!Encoding outputTransactions}.
Context `{!Encoding fcInfo} `{!Encoding blockData} `{!Encoding txInfo}.
Context `{!Encoding ExplorerBlockData} `{!Encoding Block.t}.

Lemma keeps_store name (b : Bucket) key value (tx : Tx) :
  tx !! name = Some b ->
  keeps_entries tx (store name (Put b key value) tx).2.
Proof.
  intros Hb. unfold store. simpl. split.
  - apply dom_insert_lookup_L. rewrite Hb. eauto.
  - intros n k Hs. unfold stored in *.
    destruct (decide (n = name)) as [->|Hn].
    + rewrite lookup_insert_eq. rewrite Hb in Hs. unfold Put.
      destruct (Put_refuses key value); simpl; [assumption|].
      destruct (decide (key = k)) as [->|Hk].
      * rewrite lookup_insert_eq. eauto.
      * now rewrite lookup_insert_ne.
    + now rewrite lookup_insert_ne by auto.
Qed.

Lemma never_store name (b : Bucket) key value (tx : Tx) :
  (store name (Put b key value) tx).1 <> Some ErrNilEntry.
Proof. unfold store, Put. destruct (Put_refuses key value); simpl; discriminate. Qed.

Lemma keeps_addHashType hash t : keeps (addHashType hash t).
Proof.
  intros tx. unfold addHashType. destruct (tx !! "Hashes") eqn:Hb.
  - now apply keeps_store.
  - apply keeps_entries_refl.
Qed.

Lemma never_addHashType hash t : never_ErrNilEntry (addHashType hash t).
Proof.
  intros tx. unfold addHashType. destruct (tx !! "Hashes").
  - apply never_store.
  - discriminate.
Qed.

Lemma keeps_addAddress addr txid : keeps (addAddress addr txid).
Proof.
  unfold addAddress. apply keeps_andThen; [apply keeps_addHashType|].
  intros tx. destruct (tx !! "Addresses") as [b|] eqn:Hb; [|apply keeps_entries_refl].
  destruct (getObject b addr []) as [err txns].
  destruct (decide (err <> Some ErrNilEntry)); [apply keeps_entries_refl|].
  now apply keeps_store.
Qed.

(** The absent entry is recovered inside [addAddress]: whatever it
    returns, it is not [ErrNilEntry]. *)
Lemma never_addAddress addr txid : never_ErrNilEntry (addAddress addr txid).
Proof.
  unfold addAddress. apply never_andThen; [apply never_addHashType|].
  intros tx. destruct (tx !! "Addresses") as [b|]; [|discriminate].
  destruct (getObject b addr []) as [err txns].
  destruct (decide (err <> Some ErrNilEntry)); [assumption|].
  apply never_store.
Qed.

Lemma keeps_addNewHash {V} `{!Encoding V} bucketName t hash (value : V) :
  keeps (addNewHash bucketName t hash value).
Proof.
  unfold addNewHash. apply keeps_andThen; [apply keeps_addHashType|].
  intros tx. destruct (tx !! bucketName) eqn:Hb.
  - now apply keeps_store.
  - apply keeps_entries_refl.
Qed.

Lemma never_addNewHash {V} `{!Encoding V} bucketName t hash (value : V) :
  never_ErrNilEntry (addNewHash bucketName t hash value).
Proof.
  unfold addNewHash. apply never_andThen; [apply never_addHashType|].
  intros tx. destruct (tx !! bucketName); [apply never_store|discriminate].
Qed.

Lemma keeps_addHeight height bs : keeps (addHeight height bs).
Proof.
  intros tx. unfold addHeight. destruct (tx !! "Heights") eqn:Hb.
  - now apply keeps_store.
  - apply keeps_entries_refl.
Qed.

Lemma never_addHeight height bs : never_ErrNilEntry (addHeight height bs).
Proof.
  intros tx. unfold addHeight. destruct (tx !! "Heights"); [apply never_store|discriminate].
Qed.

Ltac keeps_lookup :=
  intros tx;
  match goal with
  | |- context [?t !! ?n] => destruct (t !! n) as [?b|] eqn:?Hb; [|apply keeps_entries_refl]
  end;
  match goal with
  | |- context [getObject ?b ?k ?d] =>
      destruct (getObject b k d) as [[?e|] ?o]; [apply keeps_entries_refl|]
  end;
  now apply keeps_store.

Lemma keeps_addSiacoinInput outputID txid : keeps (addSiacoinInput outputID txid).
Proof. unfold addSiacoinInput. keeps_lookup. Qed.

Lemma keeps_addSiafundInput outputID txid : keeps (addSiafundInput outputID txid).
Proof. unfold addSiafundInput. keeps_lookup. Qed.

Lemma keeps_addFcRevision fcid txid : keeps (addFcRevision fcid txid).
Proof. unfold addFcRevision. keeps_lookup. Qed.

Lemma keeps_addFcProof fcid txid : keeps (addFcProof fcid txid).
Proof. unfold addFcProof. keeps_lookup. Qed.

Lemma keeps_value_addNewOutput key outputID txid :
  keeps_value "SiacoinOutputs" key
    (Marshal {| OutputTx := txid; InputTx := Hash_zero |})
    (addNewOutput outputID txid).
Proof.
  unfold addNewOutput, addNewHash. apply keeps_value_andThen.
  - apply keeps_value_preserves, preserves_addHashType. discriminate.
  - intros tx Hs. unfold stored in *.
    destruct (tx !! "SiacoinOutputs") as [b|] eqn:Hb; [|discriminate].
    unfold store, putObject, Put.
    destruct (Put_refuses _ _); simpl; rewrite lookup_insert_eq; [assumption|].
    destruct (decide (Marshal outputID = key)) as [<-|Hk].
    + now rewrite lookup_insert_eq.
    + now rewrite lookup_insert_ne.
Qed.

Lemma keeps_value_addNewSFOutput key outputID txid :
  keeps_value "SiafundOutputs" key
    (Marshal {| OutputTx := txid; InputTx := Hash_zero |})
    (addNewSFOutput outputID txid).
Proof.
  unfold addNewSFOutput, addNewHash. apply keeps_value_andThen.
  - apply keeps_value_preserves, preserves_addHashType. discriminate.
  - intros tx Hs. unfold stored in *.
    destruct (tx !! "SiafundOutputs") as [b|] eqn:Hb; [|discriminate].
    unfold store, putObject, Put.
    destruct (Put_refuses _ _); simpl; rewrite lookup_insert_eq; [assumption|].
    destruct (decide (Marshal outputID = key)) as [<-|Hk].
    + now rewrite lookup_insert_eq.
    + now rewrite lookup_insert_ne.
Qed.

End Invariants.

Ltac solve_keeps :=
  repeat match goal with
  | |- keeps (addAddress _ _) => apply keeps_addAddress
  | |- keeps (addNewOutput _ _) => apply keeps_addNewHash
  | |- keeps (addNewSFOutput _ _) => apply keeps_addNewHash
  | |- keeps (addNewHash _ _ _ _) => apply keeps_addNewHash
  | |- keeps (addHashType _ _) => apply keeps_addHashType
  | |- keeps (addHeight _ _) => apply keeps_addHeight
  | |- keeps (addSiacoinInput _ _) => apply keeps_addSiacoinInput
  | |- keeps (addSiafundInput _ _) => apply keeps_addSiafundInput
  | |- keeps (addFcRevision _ _) => apply keeps_addFcRevision
  | |- keeps (addFcProof _ _) => apply keeps_addFcProof
  | |- keeps (discard _) => apply keeps_discard
  | |- keeps (range _ _) => apply keeps_range; intros
  | |- keeps (_ >> _) => apply keeps_andThen
  end.

Ltac solve_never :=
  repeat match goal with
  | |- never_ErrNilEntry (addAddress _ _) => apply never_addAddress
  | |- never_ErrNilEntry (addNewOutput _ _) => apply never_addNewHash
  | |- never_ErrNilEntry (addNewSFOutput _ _) => apply never_addNewHash
  | |- never_ErrNilEntry (addNewHash _ _ _ _) => apply never_addNewHash
  | |- never_ErrNilEntry (addHashType _ _) => apply never_addHashType
  | |- never_ErrNilEntry (addHeight _ _) => apply never_addHeight
  | |- never_ErrNilEntry (discard _) => apply never_discard
  | |- never_ErrNilEntry (range [] _) => apply never_done
  | |- never_ErrNilEntry (range _ _) => apply never_range; intros
  | |- never_ErrNilEntry (_ >> _) => apply never_andThen
  end.

Ltac solve_keeps_value :=
  repeat match goal with
  | |- keeps_value "SiacoinOutputs" _ _ (addNewOutput _ _) =>
      apply keeps_value_addNewOutput
  | |- keeps_value "SiafundOutputs" _ _ (addNewSFOutput _ _) =>
      apply keeps_value_addNewSFOutput
  | |- keeps_value _ _ _ (discard _) => apply keeps_value_discard
  | |- keeps_value _ _ _ (range _ _) => apply keeps_value_range; intros
  | |- keeps_value _ _ _ (rangeFrom _ _ _) => apply keeps_value_rangeFrom; intros
  | |- keeps_value _ _ _ (_ >> _) => apply keeps_value_andThen
  | |- keeps_value _ _ _ _ => apply keeps_value_preserves; solve_preserves; fail
  end.

(** ** Further properties of [addTransaction] and [addBlockDB] *)

Section BlockProperties.
Context {TY : Types} {BO : Bolt} {BU : Build}.
Context `{!Encoding Hash} `{!Encoding BlockHeight} `{!Encoding hashType}.
Context `{!Encoding (list Hash)} `{!Encoding outputTransactions}.
Context `{!Encoding fcInfo} `{!Encoding blockData} `{!Encoding txInfo}.
Context `{!Encoding ExplorerBlockData} `{!Encoding Block.t}.

Lemma keeps_addTransaction txn : keeps (addTransaction txn).
Proof.
  unfold addTransaction, coinInputs, coinOutputs, fileContracts,
    fileContractRevisions, storageProofs, fundInputs, fundOutputs.
  repeat (solve_keeps;
          unfold fileContract, fileContractRevision, coinInput, fundInput).
Qed.

Lemma keeps_indexBlock be b target : keeps (indexBlock be b target).
Proof.
  unfold indexBlock, blockHeader, minerPayouts.
  repeat (solve_keeps; unfold indexTransaction);
    apply keeps_addTransaction.
Qed.

(** X10.  Nothing is ever dropped.  [addTransaction], whatever it returns, and
    [addBlockDB], whatever its outcome, leave the set of buckets as it
    was (no bucket is created, none removed) and leave every key bound
    that was bound: entries are added or rewritten, never deleted. *)
Theorem indexing_drops_nothing :
  (forall txn tx, keeps_entries tx (addTransaction txn tx).2) /\
  (forall be b, keeps_entries (db be) (addBlockDB be b).2).
Proof.
  split; [exact keeps_addTransaction|].
  intros be b. unfold addBlockDB, Begin, Commit, Rollback.
  destruct (blockTarget be b) as [msg|target]; [apply keeps_entries_refl|].
  destruct Begin_fails; [apply keeps_entries_refl|].
  pose proof (keeps_indexBlock be b target (db be)) as Hk.
  destruct (indexBlock be b target (db be)) as [[e|] tx']; [apply keeps_entries_refl|].
  destruct (Commit_fails tx'); [apply keeps_entries_refl|exact Hk].
Qed.

Ltac frame_with tac :=
  repeat match goal with
  | |- preserves _ (addAddress _ _) => apply preserves_addAddress; tac
  | |- preserves _ (addNewOutput _ _) => apply preserves_addNewOutput; tac
  | |- preserves _ (addNewSFOutput _ _) => apply preserves_addNewSFOutput; tac
  | |- preserves _ (addNewHash _ _ _ _) => apply preserves_addNewHash; tac
  | |- preserves _ (addHashType _ _) => apply preserves_addHashType; tac
  | |- preserves _ (addSiacoinInput _ _) => apply preserves_addSiacoinInput; tac
  | |- preserves _ (addSiafundInput _ _) => apply preserves_addSiafundInput; tac
  | |- preserves _ (addFcRevision _ _) => apply preserves_addFcRevision; tac
  | |- preserves _ (addFcProof _ _) => apply preserves_addFcProof; tac
  | |- preserves _ (discard _) => apply preserves_discard
  | |- preserves _ (range _ _) => apply preserves_range; intros
  | |- preserves _ (_ >> _) => apply preserves_andThen
  end.

Lemma preserves_addTransaction name txn :
  name <> "Hashes" -> name <> "Addresses" -> name <> "SiacoinOutputs" ->
  name <> "SiafundOutputs" -> name <> "FileContracts" ->
  preserves name (addTransaction txn).
Proof.
  intros H1 H2 H3 H4 H5.
  unfold addTransaction, coinInputs, coinOutputs, fileContracts,
    fileContractRevisions, storageProofs, fundInputs, fundOutputs.
  repeat (frame_with assumption;
          unfold fileContract, fileContractRevision, coinInput, fundInput).
Qed.

Lemma preserves_addHeight name height bs :
  name <> "Heights" -> preserves name (addHeight height bs).
Proof.
  intros Hne tx. unfold addHeight.
  destruct (tx !! "Heights"); [now apply store_other | reflexivity].
Qed.

(** X9.  The buckets the indexing writes to.  [addTransaction] leaves every
    bucket other than "Hashes", "Addresses", "SiacoinOutputs",
    "SiafundOutputs" and "FileContracts" as it found it, so it never
    writes a block record, a height summary or a transaction locator;
    [addBlockDB] leaves every bucket other than these five and "Blocks",
    "Heights", "Transactions" as it was in the database. *)
Theorem indexing_frame :
  (forall txn (tx : Tx) name,
     name ∉ ["Hashes"; "Addresses"; "SiacoinOutputs"; "SiafundOutputs";
             "FileContracts"] ->
     (addTransaction txn tx).2 !! name = tx !! name) /\
  (forall be b name,
     name ∉ ["Hashes"; "Addresses"; "SiacoinOutputs"; "SiafundOutputs";
             "FileContracts"; "Blocks"; "Heights"; "Transactions"] ->
     (addBlockDB be b).2 !! name = db be !! name).
Proof.
  split.
  - intros txn tx name Hn. rewrite !not_elem_of_cons in Hn.
    destruct Hn as (H1 & H2 & H3 & H4 & H5 & _).
    now apply preserves_addTransaction.
  - intros be b name Hn. rewrite !not_elem_of_cons in Hn.
    destruct Hn as (H1 & H2 & H3 & H4 & H5 & H6 & H7 & H8 & _).
    unfold addBlockDB, Begin, Commit, Rollback.
    destruct (blockTarget be b) as [msg|target]; [reflexivity|].
    destruct Begin_fails; [reflexivity|].
    assert (Hp : preserves name (indexBlock be b target)).
    { unfold indexBlock, blockHeader, minerPayouts.
      repeat (frame_with assumption; unfold indexTransaction);
        first [now apply preserves_addHeight | now apply preserves_addTransaction]. }
    specialize (Hp (db be)).
    destruct (indexBlock be b target (db be)) as [[e|] tx']; [reflexivity|].
    destruct (Commit_fails tx'); [reflexivity|exact Hp].
Qed.

(** X8.  The output records of a transaction are fresh when it is indexed.
    After [addTransaction] returns [nil], the record stored under the id
    of each of its coin outputs, and of each of its fund outputs, is
    (creator this transaction, spender the zero hash): no later step of
    the same transaction spends or rewrites it otherwise. *)
Theorem addTransaction_outputs_fresh (txn : Transaction.t) (tx tx' : Tx) :
  addTransaction txn tx = (None, tx') ->
  (forall i output, Transaction.SiacoinOutputs txn !! i = Some output ->
     stored tx' "SiacoinOutputs" (Marshal (Transaction_SiacoinOutputID txn i))
       = Some (Marshal {| OutputTx := Transaction_ID txn; InputTx := Hash_zero |})) /\
  (forall i output, Transaction.SiafundOutputs txn !! i = Some output ->
     stored tx' "SiafundOutputs" (Marshal (Transaction_SiafundOutputID txn i))
       = Some (Marshal {| OutputTx := Transaction_ID txn; InputTx := Hash_zero |})).
Proof.
  unfold addTransaction. intros E.
  apply andThen_None_inv in E as (s1 & E1 & E).
  apply andThen_None_inv in E as (s2 & E2 & E3).
  split.
  - intros i output Hi. unfold coinOutputs in E2.
    destruct (range_split_inv _ _ _ _ _ _ E2 Hi) as (a & a' & _ & Hbody & Hrest).
    apply andThen_None_inv in Hbody as (a0 & _ & Hnew).
    apply addNewHash_stored in Hnew.
    change tx' with ((None : option error, tx').2). rewrite <- E3.
    match goal with |- stored (?rest s2).2 ?n ?k = Some ?v =>
      assert (Hk : keeps_value n k v rest)
    end.
    { unfold fileContracts, fileContractRevisions, storageProofs, fundInputs,
        fundOutputs.
      repeat (solve_keeps_value;
              unfold fileContract, fileContractRevision, fundInput). }
    apply Hk. change s2 with ((None : option error, s2).2). rewrite <- Hrest.
    match goal with |- stored (?rest a').2 ?n ?k = Some ?v =>
      assert (Hk' : keeps_value n k v rest)
    end.
    { solve_keeps_value. }
    apply Hk', Hnew.
  - intros i output Hi.
    apply andThen_None_inv in E3 as (s3 & _ & E3).
    apply andThen_None_inv in E3 as (s4 & _ & E3).
    apply andThen_None_inv in E3 as (s5 & _ & E3).
    apply andThen_None_inv in E3 as (s6 & _ & E3).
    apply andThen_None_inv in E3 as (s7 & E7 & E8).
    unfold fundOutputs in E7.
    destruct (range_split_inv _ _ _ _ _ _ E7 Hi) as (a & a' & _ & Hbody & Hrest).
    apply andThen_None_inv in Hbody as (a0 & _ & Hnew).
    apply addNewHash_stored in Hnew.
    change tx' with ((None : option error, tx').2). rewrite <- E8.
    rewrite preserves_stored by solve_preserves.
    change s7 with ((None : option error, s7).2). rewrite <- Hrest.
    match goal with |- stored (?rest a').2 ?n ?k = Some ?v =>
      assert (Hk' : keeps_value n k v rest)
    end.
    { solve_keeps_value. }
    apply Hk', Hnew.
Qed.

Lemma never_addTransaction txn :
  Transaction.SiacoinInputs txn = [] ->
  Transaction.FileContractRevisions txn = [] ->
  Transaction.StorageProofs txn = [] ->
  Transaction.SiafundInputs txn = [] ->
  never_ErrNilEntry (addTransaction txn).
Proof.
  intros H1 H2 H3 H4.
  unfold addTransaction, coinInputs, coinOutputs, fileContracts,
    fileContractRevisions, storageProofs, fundInputs, fundOutputs.
  rewrite H1, H2, H3, H4.
  repeat (solve_never; unfold fileContract).
Qed.

(** X11.  [ErrNilEntry] comes from the lookups that must find a record only.
    For a block none of whose transactions has a coin input, a fund
    input, a contract revision or a storage proof, [addBlockDB] never
    returns [ErrNilEntry]: the absent address list, the one other place
    where [getObject] returns it, is recovered inside [addAddress]. *)
Theorem ErrNilEntry_only_from_lookups (be : BlockExplorer) (b : Block.t) :
  Forall (fun txn =>
            Transaction.SiacoinInputs txn = [] /\
            Transaction.FileContractRevisions txn = [] /\
            Transaction.StorageProofs txn = [] /\
            Transaction.SiafundInputs txn = []) (Block.Transactions b) ->
  (addBlockDB be b).1 <> Return (Some ErrNilEntry).
Proof.
  intros Hall. unfold addBlockDB, Begin, Commit, Rollback.
  destruct (blockTarget be b) as [msg|target]; [discriminate|].
  destruct Begin_fails; [discriminate|].
  assert (Hn : never_ErrNilEntry (indexBlock be b target)).
  { unfold indexBlock, blockHeader, minerPayouts.
    apply never_andThen; [solve_never|].
    apply never_andThen; [solve_never|].
    apply never_rangeFrom. eapply Forall_impl; [exact Hall|].
    intros txn (H1 & H2 & H3 & H4) j. unfold indexTransaction.
    apply never_andThen; [solve_never|now apply never_addTransaction]. }
  specialize (Hn (db be)).
  destruct (indexBlock be b target (db be)) as [[e|] tx']; simpl in *.
  - congruence.
  - destruct (Commit_fails tx'); discriminate.
Qed.

(** X13.  When [addBlockDB] panics: exactly in a debug build, on a block that
    is not the genesis block and whose parent the consensus set does not
    know.  In a build without [DEBUG] it never panics. *)
Theorem addBlockDB_panics_iff (be : BlockExplorer) (b : Block.t) :
  (exists msg, (addBlockDB be b).1 = Panic msg) <->
  DEBUG = true /\ Block_ID b <> genesisBlockID be /\
  (ChildTarget (cs be) (Block.ParentID b)).2 = false.
Proof.
  unfold addBlockDB, blockTarget, Begin, Commit, Rollback.
  destruct (decide (Block_ID b = genesisBlockID be)) as [Hg|Hg].
  - split.
    + intros [msg E]. destruct Begin_fails; [discriminate|].
      destruct (indexBlock _ _ _ _) as [[e|] tx']; [discriminate|].
      destruct (Commit_fails tx'); discriminate.
    + intros (_ & Hne & _). contradiction.
  - destruct (ChildTarget (cs be) (Block.ParentID b)) as [t ex]. simpl.
    destruct DEBUG; [destruct ex|]; simpl.
    + split; [|intros (_ & _ & ?); discriminate].
      intros [msg E]. destruct Begin_fails; [discriminate|].
      destruct (indexBlock _ _ _ _) as [[e|] tx']; [discriminate|].
      destruct (Commit_fails tx'); discriminate.
    + split; [auto|]. intros _. eauto.
    + split; [|intros (? & _); discriminate].
      intros [msg E]. destruct Begin_fails; [discriminate|].
      destruct (indexBlock _ _ _ _) as [[e|] tx']; [discriminate|].
      destruct (Commit_fails tx'); discriminate.
Qed.

Lemma indexBlock_summary be b target tx d :
  indexBlock be b target tx = (None, d) ->
  stored d "Heights" (Marshal (blockchainHeight be))
  = Some (Marshal {| ebd_ID := Block_ID b;
                     ebd_Timestamp := Block.Timestamp b;
                     ebd_Target := target;
                     ebd_Size := Z.of_nat (String.length (Marshal b)) |}).
Proof.
  intros E.
  apply indexBlock_None_inv in E as (t1 & t2 & t3 & t4 & _ & E2 & E3 & E4 & E5).
  change d with ((None : option error, d).2). rewrite <- E5.
  rewrite preserves_stored.
  2:{ apply preserves_range. intros i txn. unfold indexTransaction.
      apply preserves_andThen; [solve_preserves|].
      apply preserves_addTransaction; discriminate. }
  change t4 with ((None : option error, t4).2). rewrite <- E4.
  rewrite preserves_stored by (unfold minerPayouts; solve_preserves).
  change t3 with ((None : option error, t3).2). rewrite <- E3.
  rewrite preserves_stored by solve_preserves.
  unfold addHeight in E2. destruct (t1 !! "Heights") as [h|]; [|discriminate].
  apply store_None_inv in E2 as [_ ->]. unfold stored.
  now rewrite !lookup_insert_eq.
Qed.

(** X14.  The target in the summary of an indexed block.  After a [nil] return
    the summary stored under the height carries [RootDepth] for the
    genesis block and, in a debug build of the testing release, for
    every block; otherwise it carries the first result of [ChildTarget],
    and in a build without [DEBUG] it does so even when [ChildTarget]
    reports that the parent does not exist. *)
Theorem summary_target (be : BlockExplorer) (b : Block.t) (d : Tx) :
  addBlockDB be b = (Return None, d) ->
  stored d "Heights" (Marshal (blockchainHeight be))
  = Some (Marshal {|
      ebd_ID := Block_ID b;
      ebd_Timestamp := Block.Timestamp b;
      ebd_Target :=
        if decide (Block_ID b = genesisBlockID be) then RootDepth
        else if DEBUG && bool_decide (Release = "testing") then RootDepth
        else (ChildTarget (cs be) (Block.ParentID b)).1;
      ebd_Size := Z.of_nat (String.length (Marshal b)) |}).
Proof.
  intros E. apply addBlockDB_None_inv in E as (target & Ht & _ & E & _).
  rewrite (indexBlock_summary _ _ _ _ _ E). do 3 f_equal.
  unfold blockTarget in Ht.
  destruct (decide (Block_ID b = genesisBlockID be)); [congruence|].
  destruct (ChildTarget (cs be) (Block.ParentID b)) as [t ex]. simpl.
  destruct DEBUG; simpl; [|congruence].
  destruct ex; simpl in Ht; [|discriminate].
  unfold bool_decide. destruct (decide (Release = "testing")); simpl.
  - destruct (decide_rel _ _ _); congruence.
  - destruct (decide_rel _ _ _); congruence.
Qed.

(** X15.  A database that lacks a bucket the block header needs.  Without
    "Hashes" the error is that of [addHashType]; with it and without
    "Blocks" it is that of [addNewHash]; with both and without "Heights"
    it is that of [addHeight], whose text names the bucket Blocks.  In
    each case the error is returned and the database is as it was. *)
Theorem addBlockDB_missing_bucket (be : BlockExplorer) (b : Block.t) (target : Target) :
  blockTarget be b = inr target ->
  Begin_fails = None ->
  (db be !! "Hashes" = None ->
   addBlockDB be b
   = (Return (Some (errors_New "bucket Hashes does not exist")), db be)) /\
  (forall h, db be !! "Hashes" = Some h ->
   Put_refuses (Marshal (Block_ID b)) (Marshal hashBlock) = None ->
   db be !! "Blocks" = None ->
   addBlockDB be b
   = (Return (Some (errors_New "bucket does not exist: Blocks")), db be)) /\
  (forall h bl, db be !! "Hashes" = Some h -> db be !! "Blocks" = Some bl ->
   Put_refuses (Marshal (Block_ID b)) (Marshal hashBlock) = None ->
   Put_refuses (Marshal (Block_ID b))
     (Marshal {| bd_Block := b; bd_Height := blockchainHeight be |}) = None ->
   db be !! "Heights" = None ->
   addBlockDB be b
   = (Return (Some (errors_New "bucket Blocks does not exist")), db be)).
Proof.
  intros Ht Hb. repeat split.
  - intros Hh. eapply (addBlockDB_indexBlock_error be b target _ (db be) Ht Hb).
    unfold indexBlock, blockHeader, addNewHash, andThen, addHashType.
    now rewrite Hh.
  - intros h Hh Hp Hbl.
    eapply (addBlockDB_indexBlock_error be b target _ _ Ht Hb).
    unfold indexBlock, blockHeader, addNewHash, andThen, addHashType,
      store, putObject, Put.
    rewrite Hh, Hp. simpl. rewrite lookup_insert_ne by discriminate.
    rewrite Hbl. reflexivity.
  - intros h bl Hh Hbl Hp1 Hp2 Hht.
    eapply (addBlockDB_indexBlock_error be b target _ _ Ht Hb).
    unfold indexBlock, blockHeader, addNewHash, andThen, addHashType, addHeight,
      store, putObject, Put.
    rewrite Hh, Hp1. simpl. rewrite lookup_insert_ne by discriminate.
    rewrite Hbl, Hp2. simpl. rewrite !lookup_insert_ne by discriminate.
    rewrite Hht. reflexivity.
Qed.

(** X16.  A block without payouts and without transactions, on a database
    that has the buckets "Hashes", "Blocks" and "Heights" and accepts the
    writes: [addBlockDB] returns [nil] and the database gains exactly the
    block record, the summary under the height and the tag of the block
    id; every other entry is as before. *)
Theorem addBlockDB_empty_block (be : BlockExplorer) (b : Block.t) (target : Target)
    (h bl ht : Bucket) :
  let record := Marshal {| bd_Block := b; bd_Height := blockchainHeight be |} in
  let summary := Marshal {| ebd_ID := Block_ID b;
                            ebd_Timestamp := Block.Timestamp b;
                            ebd_Target := target;
                            ebd_Size := Z.of_nat (String.length (Marshal b)) |} in
  Block.MinerPayouts b = [] ->
  Block.Transactions b = [] ->
  blockTarget be b = inr target ->
  Begin_fails = None ->
  (forall d, Commit_fails d = None) ->
  db be !! "Hashes" = Some h ->
  db be !! "Blocks" = Some bl ->
  db be !! "Heights" = Some ht ->
  Put_refuses (Marshal (Block_ID b)) (Marshal hashBlock) = None ->
  Put_refuses (Marshal (Block_ID b)) record = None ->
  Put_refuses (Marshal (blockchainHeight be)) summary = None ->
  (addBlockDB be b).1 = Return None /\
  stored (addBlockDB be b).2 "Hashes" (Marshal (Block_ID b)) = Some (Marshal hashBlock) /\
  stored (addBlockDB be b).2 "Blocks" (Marshal (Block_ID b)) = Some record /\
  stored (addBlockDB be b).2 "Heights" (Marshal (blockchainHeight be)) = Some summary /\
  (forall name key,
     (name, key) <> ("Hashes", Marshal (Block_ID b)) ->
     (name, key) <> ("Blocks", Marshal (Block_ID b)) ->
     (name, key) <> ("Heights", Marshal (blockchainHeight be)) ->
     stored (addBlockDB be b).2 name key = stored (db be) name key).
Proof.
  intros record summary Hp Htx Ht Hb Hc Hh Hbl Hht P1 P2 P3.
  assert (E : indexBlock be b target (db be) =
    (None,
     <["Hashes" := <[Marshal (Block_ID b) := Marshal hashBlock]>
                     (<[Marshal (Block_ID b) := Marshal hashBlock]> h)]>
       (<["Heights" := <[Marshal (blockchainHeight be) := summary]> ht]>
          (<["Blocks" := <[Marshal (Block_ID b) := record]> bl]>
             (<["Hashes" := <[Marshal (Block_ID b) := Marshal hashBlock]> h]>
                (db be)))))).
  { unfold indexBlock, blockHeader, minerPayouts, addNewHash, andThen, addHashType,
      addHeight, store, putObject, Put, range.
    rewrite Hp, Htx, Hh, P1. simpl.
    rewrite lookup_insert_ne by discriminate. rewrite Hbl. fold record. rewrite P2. simpl.
    rewrite !lookup_insert_ne by discriminate. rewrite Hht. fold summary. rewrite P3. simpl.
    rewrite !lookup_insert_ne by discriminate. rewrite lookup_insert_eq. reflexivity. }
  unfold addBlockDB, Begin, Commit. rewrite Ht, Hb, E, Hc. simpl.
  split; [reflexivity|]. unfold stored. repeat split.
  - now rewrite !lookup_insert_eq.
  - rewrite !lookup_insert_ne by discriminate. now rewrite !lookup_insert_eq.
  - rewrite lookup_insert_ne by discriminate. now rewrite !lookup_insert_eq.
  - intros name key N1 N2 N3.
    destruct (decide (name = "Hashes")) as [->|D1].
    { rewrite lookup_insert_eq, Hh. rewrite !lookup_insert_ne; [reflexivity|congruence..]. }
    rewrite lookup_insert_ne by auto.
    destruct (decide (name = "Heights")) as [->|D2].
    { rewrite lookup_insert_eq, Hht. rewrite lookup_insert_ne; [reflexivity|congruence]. }
    rewrite lookup_insert_ne by auto.
    destruct (decide (name = "Blocks")) as [->|D3].
    { rewrite lookup_insert_eq, Hbl. rewrite lookup_insert_ne; [reflexivity|congruence]. }
    now rewrite !lookup_insert_ne by auto.
Qed.

Lemma addTransaction_revision_error txn j revision tx1 tx2 e tx3 :
  Transaction.FileContractRevisions txn !! j = Some revision ->
  uptoRevision txn j tx1 = (None, tx2) ->
  addFcRevision (FileContractRevision.ParentID revision) (Transaction_ID txn) tx2
    = (Some e, tx3) ->
  addTransaction txn tx1 = (Some e, tx3).
Proof.
  intros Hj Hup E. unfold addTransaction. unfold uptoRevision in Hup.
  apply andThen_None_inv in Hup as (s1 & E1 & Hup).
  apply andThen_None_inv in Hup as (s2 & E2 & Hup).
  apply andThen_None_inv in Hup as (s3 & E3 & E4).
  rewrite (andThen_ok _ _ _ _ E1), (andThen_ok _ _ _ _ E2), (andThen_ok _ _ _ _ E3).
  apply andThen_err. unfold fileContractRevisions.
  eapply range_reach_err; eauto.
  unfold fileContractRevision. now apply andThen_err.
Qed.

Lemma addTransaction_proof_error txn j proof tx1 tx2 e tx3 :
  Transaction.StorageProofs txn !! j = Some proof ->
  uptoStorageProof txn j tx1 = (None, tx2) ->
  addFcProof (StorageProof.ParentID proof) (Transaction_ID txn) tx2 = (Some e, tx3) ->
  addTransaction txn tx1 = (Some e, tx3).
Proof.
  intros Hj Hup E. unfold addTransaction. unfold uptoStorageProof in Hup.
  apply andThen_None_inv in Hup as (s1 & E1 & Hup).
  apply andThen_None_inv in Hup as (s2 & E2 & Hup).
  apply andThen_None_inv in Hup as (s3 & E3 & Hup).
  apply andThen_None_inv in Hup as (s4 & E4 & E5).
  rewrite (andThen_ok _ _ _ _ E1), (andThen_ok _ _ _ _ E2),
    (andThen_ok _ _ _ _ E3), (andThen_ok _ _ _ _ E4).
  apply andThen_err. unfold storageProofs. eapply range_reach_err; eauto.
Qed.

Lemma contract_lookup_missing fcid txid (tx : Tx) b :
  tx !! "FileContracts" = Some b ->
  b !! Marshal fcid = None ->
  addFcRevision fcid txid tx = (Some ErrNilEntry, tx) /\
  addFcProof fcid txid tx = (Some ErrNilEntry, tx).
Proof.
  intros Hb Hk. unfold addFcRevision, addFcProof, getObject.
  now rewrite Hb, Hk.
Qed.

(** X7.  A revision, or a storage proof, of a contract that has no record
    when it is processed: [addFcRevision] (or [addFcProof]) returns
    [ErrNilEntry] and writes nothing, [addTransaction] returns that
    error, and [addBlockDB] returns it and leaves the committed database
    as it was. *)
Theorem missing_contract_aborts_block (be : BlockExplorer) (b : Block.t)
    (target : Target) (k : nat) (txn : Transaction.t) (j : nat)
    (tx1 tx2 : Tx) (bkt : Bucket) :
  blockTarget be b = inr target ->
  Begin_fails = None ->
  Block.Transactions b !! k = Some txn ->
  uptoTransaction be b target k txn (db be) = (None, tx1) ->
  tx2 !! "FileContracts" = Some bkt ->
  (forall revision,
     Transaction.FileContractRevisions txn !! j = Some revision ->
     uptoRevision txn j tx1 = (None, tx2) ->
     bkt !! Marshal (FileContractRevision.ParentID revision) = None ->
     addFcRevision (FileContractRevision.ParentID revision) (Transaction_ID txn) tx2
       = (Some ErrNilEntry, tx2) /\
     addTransaction txn tx1 = (Some ErrNilEntry, tx2) /\
     addBlockDB be b = (Return (Some ErrNilEntry), db be)) /\
  (forall proof,
     Transaction.StorageProofs txn !! j = Some proof ->
     uptoStorageProof txn j tx1 = (None, tx2) ->
     bkt !! Marshal (StorageProof.ParentID proof) = None ->
     addFcProof (StorageProof.ParentID proof) (Transaction_ID txn) tx2
       = (Some ErrNilEntry, tx2) /\
     addTransaction txn tx1 = (Some ErrNilEntry, tx2) /\
     addBlockDB be b = (Return (Some ErrNilEntry), db be)).
Proof.
  intros Ht Hb Hk Hup Hbkt. split.
  - intros revision Hj Hin Hnone.
    destruct (contract_lookup_missing _ (Transaction_ID txn) _ _ Hbkt Hnone) as [E _].
    split; [exact E|].
    pose proof (addTransaction_revision_error _ _ _ _ _ _ _ Hj Hin E) as Etx.
    split; [exact Etx|].
    eapply addBlockDB_transaction_error; eauto.
  - intros proof Hj Hin Hnone.
    destruct (contract_lookup_missing _ (Transaction_ID txn) _ _ Hbkt Hnone) as [_ E].
    split; [exact E|].
    pose proof (addTransaction_proof_error _ _ _ _ _ _ _ Hj Hin E) as Etx.
    split; [exact Etx|].
    eapply addBlockDB_transaction_error; eauto.
Qed.

End BlockProperties.

(** ** The reference instance reads back what it writes *)

Import Reference.

Local Open Scope N_scope.

Lemma get_put_positive p rest :
  Reference.get_positive (Reference.put_positive p rest) = Some (p, rest).
Proof. induction p as [p IH|p IH|]; simpl; [now rewrite IH ..|reflexivity]. Qed.

Lemma get_put_N n rest : Reference.get_N (Reference.put_N n rest) = Some (n, rest).
Proof. destruct n as [|p]; simpl; [reflexivity|]. now rewrite get_put_positive. Qed.

Lemma get_put_n_hashes (l : list Hash) rest :
  Reference.get_n_hashes (length l) (foldr Reference.put_N rest l) = Some (l, rest).
Proof.
  induction l as [|h l IH]; [reflexivity|].
  cbn [length foldr Reference.get_n_hashes]. now rewrite get_put_N, IH.
Qed.

Lemma get_put_hashes (l : list Hash) rest :
  Reference.get_hashes (Reference.put_hashes l rest) = Some (l, rest).
Proof.
  unfold Reference.get_hashes, Reference.put_hashes.
  rewrite get_put_N, Nat2N.id. apply get_put_n_hashes.
Qed.

Lemma Reference_fcInfo_roundtrip (x : fcInfo) :
  Unmarshal (Marshal x) = inr x.
Proof.
  destruct x as [c l p]. cbn [Unmarshal Marshal Reference.fcInfo_encoding].
  unfold Reference.get_fcInfo. cbn [Contract Revisions Proof].
  now rewrite get_put_N, get_put_hashes, get_put_N.
Qed.

(** ** Examples on the reference instance *)

(** [addBlockDB_rollback] on two blocks: one whose transaction spends an
    output that was never created, one that is indexed. *)
Lemma addBlockDB_rollback_example :
  (addBlockDB (explorer empty_db) (block_of spending_tx)).2 = empty_db /\
  addBlockDB (explorer empty_db) (block_of spending_tx)
    = (Return (Some ErrNilEntry), empty_db) /\
  (exists target t1 t2 t3 t4,
     blockTarget (explorer empty_db) genesis_block = inr target /\
     Begin_fails = None /\
     addNewHash "Blocks" hashBlock (Block_ID genesis_block)
       {| bd_Block := genesis_block; bd_Height := 1%Z |} empty_db = (None, t1) /\
     addHeight 1%Z
       {| ebd_ID := Block_ID genesis_block;
          ebd_Timestamp := Block.Timestamp genesis_block;
          ebd_Target := target;
          ebd_Size := Z.of_nat (String.length (Marshal genesis_block)) |} t1
       = (None, t2) /\
     addHashType (Block_ID genesis_block) hashBlock t2 = (None, t3) /\
     minerPayouts genesis_block t3 = (None, t4) /\
     (forall i payout, Block.MinerPayouts genesis_block !! i = Some payout ->
        exists s s' s'',
          range (take i (Block.MinerPayouts genesis_block)) (fun i payout =>
            addAddress (SiacoinOutput.UnlockHash payout) (Block_ID genesis_block) >>
            addNewOutput (Block_MinerPayoutID genesis_block i) (Block_ID genesis_block))
            t3 = (None, s) /\
          addAddress (SiacoinOutput.UnlockHash payout) (Block_ID genesis_block) s
            = (None, s') /\
          addNewOutput (Block_MinerPayoutID genesis_block i) (Block_ID genesis_block) s'
            = (None, s'')) /\
     range (Block.Transactions genesis_block) (indexTransaction genesis_block) t4
       = (None, (addBlockDB (explorer empty_db) genesis_block).2) /\
     (forall k txn, Block.Transactions genesis_block !! k = Some txn ->
        exists s s' s'',
          range (take k (Block.Transactions genesis_block))
            (indexTransaction genesis_block) t4 = (None, s) /\
          addNewHash "Transactions" hashTransaction (Transaction_ID txn)
            {| BlockID := Block_ID genesis_block; TxNum := k |} s = (None, s') /\
          addTransaction txn s' = (None, s'')) /\
     Commit_fails (addBlockDB (explorer empty_db) genesis_block).2 = None).
Proof.
  split; [|split].
  - apply (proj1 (addBlockDB_rollback (explorer empty_db) (block_of spending_tx))).
    compute_done.
  - apply (proj1 (proj2 (addBlockDB_rollback (explorer empty_db) (block_of spending_tx)))
             17
             ErrNilEntry
             (indexBlock (explorer empty_db) (block_of spending_tx) 17 empty_db).2);
      compute_done.
  - apply (proj2 (proj2 (addBlockDB_rollback (explorer empty_db) genesis_block))).
    compute_done.
Defined.

(** C2.  Address 7 is referenced by 101 and then by 102 in a database
    with every bucket.  The first call starts the list [101].  The second
    call returns [nil] and leaves the transaction as it found it: the
    list is still [101], not [101; 102]. *)
Theorem addAddress_drops_second_reference :
  addAddress 7 101 empty_db = (None, referenced_once) /\
  stored referenced_once "Addresses" (Marshal (7 : Hash)) = Some (Marshal [101]) /\
  addAddress 7 102 referenced_once = (None, referenced_once) /\
  stored (addAddress 7 102 referenced_once).2 "Addresses" (Marshal (7 : Hash))
    <> Some (Marshal [101; 102]).
Proof. repeat split; compute_done. Qed.

(** C1.  A step of the indexing fails and the database is not left as it
    was.  Block 2 holds transaction 101, which revises contract 8 and
    names the new unlock hash 7; the database has no bucket "Addresses".
    The call of [addAddress] for the new unlock hash (line 351) is
    reached, tags hash 7 as an address and then returns an error.  At
    the return of [addBlockDB] the committed database differs from the
    one before the call: it holds the revision of contract 8 and the tag
    of hash 7, a write of the very step that failed, and no list for
    address 7. *)
Theorem failed_step_leaves_partial_writes :
  let be := explorer no_addresses_db in
  let b := block_of revising_tx in
  let reached :=
    (uptoTransaction be b 17 0 revising_tx >>
     uptoRevisionAddress revising_tx the_revision) no_addresses_db in
  reached.1 = None /\
  (addAddress 7 101 reached.2).1
    = Some (errors_New "Addresses bucket does not exist") /\
  (addBlockDB be b).2 <> db be /\
  stored (db be) "Hashes" (Marshal (7 : Hash)) = None /\
  stored (addBlockDB be b).2 "Hashes" (Marshal (7 : Hash))
    = Some (Marshal hashUnlockHash) /\
  (addBlockDB be b).2 !! "Addresses" = None /\
  stored (db be) "FileContracts" (Marshal (8 : Hash))
    = Some (Marshal {| Contract := 100; Revisions := []; Proof := Hash_zero |}) /\
  stored (addBlockDB be b).2 "FileContracts" (Marshal (8 : Hash))
    = Some (Marshal {| Contract := 100; Revisions := [101]; Proof := Hash_zero |}).
Proof.
  cbv zeta. repeat split; compute_done.
Qed.

(** C3.  An error of a step is not returned.  On the same block and
    database, the call of [addAddress] of line 351 returns an error; the
    loop body for the revision returns [nil], [addTransaction] returns
    [nil], and [addBlockDB] returns [nil], not that error, having
    committed. *)
Theorem revision_address_failure_is_committed :
  let be := explorer no_addresses_db in
  let b := block_of revising_tx in
  let before_tx := (uptoTransaction be b 17 0 revising_tx no_addresses_db).2 in
  let reached := (uptoRevisionAddress revising_tx the_revision before_tx).2 in
  (uptoTransaction be b 17 0 revising_tx no_addresses_db).1 = None /\
  (uptoRevisionAddress revising_tx the_revision before_tx).1 = None /\
  (addAddress (FileContractRevision.NewUnlockHash the_revision)
     (Transaction_ID revising_tx) reached).1
    = Some (errors_New "Addresses bucket does not exist") /\
  (fileContractRevision revising_tx the_revision before_tx).1 = None /\
  (addTransaction revising_tx before_tx).1 = None /\
  (addBlockDB be b).1 = Return None /\
  Commit (addBlockDB be b).2 (db be) = (None, (addBlockDB be b).2) /\
  (addBlockDB be b).2 <> db be.
Proof.
  cbv zeta. repeat split; compute_done.
Qed.

(** C9.  A debug build with the testing release, a block that is not the
    genesis block, and a consensus set that does not know its parent:
    [addBlockDB] panics, as it does in a debug build of another release;
    it does not continue with [RootDepth]. *)
Theorem testing_unknown_parent_panics :
  Block_ID (block_of no_transaction) <> genesisBlockID (stray_explorer empty_db) /\
  (ChildTarget (cs (stray_explorer empty_db))
     (Block.ParentID (block_of no_transaction))).2 = false /\
  addBlockDB (BU := testing_build) (stray_explorer empty_db) (block_of no_transaction)
    = (Panic "Applied block not in consensus", empty_db) /\
  addBlockDB (BU := debug_build) (stray_explorer empty_db) (block_of no_transaction)
    = (Panic "Applied block not in consensus", empty_db).
Proof.
  split; [compute_done|]. split; [reflexivity|]. split.
  - apply (debug_unknown_parent_panics (BU := testing_build));
      [reflexivity | compute_done | reflexivity].
  - apply (debug_unknown_parent_panics (BU := debug_build));
      [reflexivity | compute_done | reflexivity].
Qed.



(** [missing_output_aborts_block] for block 2 over the empty buckets:
    its transaction 101 spends coin output 5, or fund output 6, and
    neither was created. *)
Lemma missing_output_aborts_block_witness :
  (addSiacoinInput 5 101
     (uptoTransaction (explorer empty_db) (block_of spending_tx) 17 0 spending_tx empty_db).2
   = (Some ErrNilEntry,
      (uptoTransaction (explorer empty_db) (block_of spending_tx) 17 0 spending_tx empty_db).2) /\
   addTransaction spending_tx
     (uptoTransaction (explorer empty_db) (block_of spending_tx) 17 0 spending_tx empty_db).2
   = (Some ErrNilEntry,
      (uptoTransaction (explorer empty_db) (block_of spending_tx) 17 0 spending_tx empty_db).2) /\
   addBlockDB (explorer empty_db) (block_of spending_tx)
   = (Return (Some ErrNilEntry), empty_db)) /\
  (addSiafundInput 6 101
     (uptoTransaction (explorer empty_db) (block_of fund_spending_tx) 17 0 fund_spending_tx empty_db).2
   = (Some ErrNilEntry,
      (uptoTransaction (explorer empty_db) (block_of fund_spending_tx) 17 0 fund_spending_tx empty_db).2) /\
   addTransaction fund_spending_tx
     (uptoTransaction (explorer empty_db) (block_of fund_spending_tx) 17 0 fund_spending_tx empty_db).2
   = (Some ErrNilEntry,
      (uptoTransaction (explorer empty_db) (block_of fund_spending_tx) 17 0 fund_spending_tx empty_db).2) /\
   addBlockDB (explorer empty_db) (block_of fund_spending_tx)
   = (Return (Some ErrNilEntry), empty_db)).
Proof.
  split.
  - refine (proj1 (missing_output_aborts_block (explorer empty_db)
             (block_of spending_tx) 17 0 spending_tx 0 _ _ ∅ _ _ _ _)
             {| SiacoinInput.ParentID := 5 |} _ _ _ _);
      compute_done.
  - refine (proj2 (missing_output_aborts_block (explorer empty_db)
             (block_of fund_spending_tx) 17 0 fund_spending_tx 0 _ _ ∅ _ _ _ _)
             {| SiafundInput.ParentID := 6 |} _ _ _ _);
      compute_done.
Defined.

(** C6, a second set changes the id.  Output 5, created by 100, is spent by
    101 and then by 102: both inputs succeed, and the spending id stored
    is 101 after the first and 102 after the second.  Contract 8, formed
    by 100, is proved by 101 and then by 102: the proof id stored is 101
    and then 102. *)
Lemma second_input_changes_spender :
  (addSiacoinInput 5 101 created_output = (None, spent_once) /\
   stored spent_once "SiacoinOutputs" (Marshal (5 : Hash))
     = Some (Marshal {| OutputTx := 100; InputTx := 101 |}) /\
   addSiacoinInput 5 102 spent_once = (None, spent_twice) /\
   stored spent_twice "SiacoinOutputs" (Marshal (5 : Hash))
     = Some (Marshal {| OutputTx := 100; InputTx := 102 |}) /\
   stored spent_twice "SiacoinOutputs" (Marshal (5 : Hash))
     <> stored spent_once "SiacoinOutputs" (Marshal (5 : Hash))) /\
  (addFcProof 8 101 formed_contract = (None, proved_once) /\
   stored proved_once "FileContracts" (Marshal (8 : Hash))
     = Some (Marshal {| Contract := 100; Revisions := []; Proof := 101 |}) /\
   addFcProof 8 102 proved_once = (None, proved_twice) /\
   stored proved_twice "FileContracts" (Marshal (8 : Hash))
     = Some (Marshal {| Contract := 100; Revisions := []; Proof := 102 |}) /\
   stored proved_twice "FileContracts" (Marshal (8 : Hash))
     <> stored proved_once "FileContracts" (Marshal (8 : Hash))).
Proof. repeat split; compute_done. Qed.

(** [set_once_if_referenced_once] for the input that spends output 5,
    followed by updates of other records. *)
Lemma set_once_if_referenced_once_witness :
  (exists creator revisions,
     stored spent_once "SiacoinOutputs" (Marshal (5 : Hash))
       = Some (written (SpendCoin 5 101) creator revisions)) /\
  stored (performAll [SpendCoin 6 102; SpendFund 5 103; Prove 8 104] spent_once).2
    "SiacoinOutputs" (Marshal (5 : Hash))
    = stored spent_once "SiacoinOutputs" (Marshal (5 : Hash)).
Proof.
  apply (set_once_if_referenced_once (SpendCoin 5 101)
           [SpendCoin 6 102; SpendFund 5 103; Prove 8 104] created_output spent_once).
  - compute_done.
  - repeat constructor; intros E; vm_compute in E; discriminate.
Defined.

(** [revisions_accumulate] for contract 8 under [three_revisions]: its
    revision list becomes [101; 103]. *)
Lemma revisions_accumulate_witness :
  exists raw',
    stored (reviseAll three_revisions two_contracts).2 "FileContracts"
      (Marshal (8 : Hash)) = Some raw' /\
    Unmarshal raw' = inr {| Contract := 100;
                            Revisions := [] ++ revisionsOf 8 three_revisions;
                            Proof := Hash_zero |}.
Proof.
  apply (revisions_accumulate 8 three_revisions two_contracts
           (reviseAll three_revisions two_contracts).2
           (Marshal {| Contract := 100; Revisions := []; Proof := Hash_zero |})
           {| Contract := 100; Revisions := []; Proof := Hash_zero |}).
  - exact Reference_fcInfo_roundtrip.
  - compute_done.
  - compute_done.
  - compute_done.
Defined.

(** [genesis_records_RootDepth] for block 0. *)
Lemma genesis_records_RootDepth_witness :
  blockTarget (explorer empty_db) genesis_block = inr RootDepth /\
  addBlockDB (stray_explorer empty_db) genesis_block
    = addBlockDB (explorer empty_db) genesis_block /\
  stored (addBlockDB (explorer empty_db) genesis_block).2 "Heights" (Marshal 1%Z)
    = Some (Marshal {| ebd_ID := 0; ebd_Timestamp := 40%Z;
                       ebd_Target := RootDepth;
                       ebd_Size := Z.of_nat (String.length (Marshal genesis_block)) |}).
Proof.
  assert (Hg : Block_ID genesis_block = genesisBlockID (explorer empty_db))
    by reflexivity.
  destruct (genesis_records_RootDepth (explorer empty_db) genesis_block Hg)
    as (H1 & H2 & H3).
  split; [exact H1|]. split.
  - exact (H2 {| ChildTarget := fun _ => (17, false) |}).
  - apply (H3 (addBlockDB (explorer empty_db) genesis_block).2).
    compute_done.
Defined.

(** [empty_is_zero_hash] for output 5 and for the contract of
    [forming_tx]. *)
Lemma empty_is_zero_hash_witness :
  stored created_output "SiacoinOutputs" (Marshal (5 : Hash))
    = Some (Marshal {| OutputTx := 100; InputTx := Hash_zero |}) /\
  stored created_sf_output "SiafundOutputs" (Marshal (5 : Hash))
    = Some (Marshal {| OutputTx := 100; InputTx := Hash_zero |}) /\
  stored (fileContract forming_tx 0 the_contract empty_db).2 "FileContracts"
    (Marshal (Transaction_FileContractID forming_tx 0))
    = Some (Marshal {| Contract := Transaction_ID forming_tx; Revisions := [];
                       Proof := Hash_zero |}) /\
  addSiacoinInput 5 Hash_zero created_output = (None, created_output) /\
  addSiafundInput 5 Hash_zero created_sf_output = (None, created_sf_output) /\
  addFcProof (Transaction_FileContractID forming_tx 0) Hash_zero fresh_contract
    = (None, fresh_contract).
Proof.
  destruct (empty_is_zero_hash (TY := types) (BO := bolt))
    as (H1 & H2 & H3 & H4 & H5 & H6).
  split; [|split; [|split; [|split; [|split]]]].
  - apply (H1 5 100 empty_db created_output). compute_done.
  - apply (H2 5 100 empty_db created_sf_output). compute_done.
  - apply (H3 forming_tx 0%nat the_contract empty_db
             (fileContract forming_tx 0 the_contract empty_db).2).
    compute_done.
  - apply (H4 5 100 empty_db created_output); compute_done.
  - apply (H5 5 100 empty_db created_sf_output); compute_done.
  - apply (H6 forming_tx 0%nat empty_db fresh_contract); compute_done.
Defined.

(** The scenario of the specification: block 0 pays to address 7 and
    holds transaction 100 with one coin output, its id 100000, to address
    9.  After [addBlockDB] the address lists, the output record, the
    summary under the height and the hash tags are as listed. *)
Example end_to_end_scenario :
  let d := (addBlockDB (explorer empty_db) genesis_block).2 in
  (addBlockDB (explorer empty_db) genesis_block).1 = Return None /\
  stored d "Addresses" (Marshal (7 : Hash)) = Some (Marshal [0 : Hash]) /\
  stored d "Addresses" (Marshal (9 : Hash)) = Some (Marshal [100 : Hash]) /\
  stored d "SiacoinOutputs" (Marshal (100000 : Hash))
    = Some (Marshal {| OutputTx := 100; InputTx := Hash_zero |}) /\
  stored d "Heights" (Marshal 1%Z)
    = Some (Marshal {| ebd_ID := 0; ebd_Timestamp := 40%Z;
                       ebd_Target := RootDepth;
                       ebd_Size := Z.of_nat (String.length (Marshal genesis_block)) |}) /\
  stored d "Hashes" (Marshal (0 : Hash)) = Some (Marshal hashBlock) /\
  stored d "Hashes" (Marshal (100 : Hash)) = Some (Marshal hashTransaction).
Proof. cbv zeta. repeat split; compute_done. Qed.

(** ** Examples for the further properties *)

Lemma get_put_outputTransactions (x : outputTransactions) :
  Unmarshal (Marshal x) = inr x.
Proof.
  destruct x as [o i]. cbn [Unmarshal Marshal Reference.outputTransactions_encoding].
  unfold Reference.get_outputTransactions. cbn [OutputTx InputTx].
  now rewrite !get_put_N.
Qed.

(** [putObject_getObject] for the record of output 5 in an empty bucket. *)
Lemma putObject_getObject_witness :
  getObject (putObject (∅ : Bucket) (5 : Hash)
               {| OutputTx := 100; InputTx := Hash_zero |}).2 (5 : Hash)
    {| OutputTx := 1; InputTx := 2 |}
    = (None, {| OutputTx := 100; InputTx := Hash_zero |}) /\
  (forall (key' : Hash) (obj' : outputTransactions),
     Marshal key' <> Marshal (5 : Hash) ->
     getObject (putObject (∅ : Bucket) (5 : Hash)
                  {| OutputTx := 100; InputTx := Hash_zero |}).2 key' obj'
     = getObject (∅ : Bucket) key' obj').
Proof.
  apply (putObject_getObject (K := Hash) (V := outputTransactions) ∅); compute_done.
Defined.

(** [addHashType_last_wins]: hash 7 tagged as a transaction and then as
    an address. *)
Lemma addHashType_last_wins_witness :
  stored (addHashType 7 hashUnlockHash (addHashType 7 hashTransaction empty_db).2).2
    "Hashes" (Marshal (7 : Hash)) = Some (Marshal hashUnlockHash) /\
  (forall key, key <> Marshal (7 : Hash) ->
     stored (addHashType 7 hashUnlockHash (addHashType 7 hashTransaction empty_db).2).2
       "Hashes" key = stored empty_db "Hashes" key) /\
  (forall name, name <> "Hashes" ->
     (addHashType 7 hashUnlockHash (addHashType 7 hashTransaction empty_db).2).2 !! name
     = empty_db !! name).
Proof.
  apply (addHashType_last_wins 7 hashTransaction hashUnlockHash empty_db
           (addHashType 7 hashTransaction empty_db).2); compute_done.
Defined.

(** [addAddress_first_reference]: address 7 referenced by 101 in the
    empty buckets. *)
Lemma addAddress_first_reference_witness :
  addAddress 7 101 empty_db =
    (None,
     <["Addresses" := <[Marshal (7 : Hash) := Marshal [101 : Hash]]> ∅]>
       (<["Hashes" := <[Marshal (7 : Hash) := Marshal hashUnlockHash]> ∅]> empty_db)).
Proof.
  apply (addAddress_first_reference 7 101 empty_db ∅ ∅); compute_done.
Defined.

(** [address_list_keeps_first_reference]: address 7 referenced by 101,
    102 and 103. *)
Lemma address_list_keeps_first_reference_witness :
  stored (referenceAll 7 [101; 102; 103] empty_db).2 "Addresses" (Marshal (7 : Hash))
    = Some (Marshal [101 : Hash]).
Proof.
  apply (address_list_keeps_first_reference 7 101 [102; 103] empty_db
           (referenceAll 7 [101; 102; 103] empty_db).2 ∅); compute_done.
Defined.

(** [addNewHash_overwrites]: output 5, spent by 101, is created again by
    102; its record is fresh again. *)
Lemma addNewHash_overwrites_witness :
  stored (addNewOutput 5 102 spent_once).2 "Hashes" (Marshal (5 : Hash))
    = Some (Marshal hashCoinOutputID) /\
  stored (addNewOutput 5 102 spent_once).2 "SiacoinOutputs" (Marshal (5 : Hash))
    = Some (Marshal {| OutputTx := 102; InputTx := Hash_zero |}) /\
  (forall name key,
     (name, key) <> ("Hashes", Marshal (5 : Hash)) ->
     (name, key) <> ("SiacoinOutputs", Marshal (5 : Hash)) ->
     stored (addNewOutput 5 102 spent_once).2 name key = stored spent_once name key).
Proof.
  apply (addNewHash_overwrites "SiacoinOutputs" hashCoinOutputID 5
           {| OutputTx := 102; InputTx := Hash_zero |} spent_once
           (addNewOutput 5 102 spent_once).2); compute_done.
Defined.

(** [performAll_last_wins] under [three_updates]: output 5 keeps creator
    100 and ends with spender 102; contract 8 keeps creator 100 and no
    revisions, and ends with proof 103. *)
Lemma performAll_last_wins_witness :
  (exists raw',
     stored (performAll three_updates output_and_contract).2 "SiacoinOutputs"
       (Marshal (5 : Hash)) = Some raw' /\
     Unmarshal raw' = inr {| OutputTx := 100; InputTx := 102 |}) /\
  (exists raw',
     stored (performAll three_updates output_and_contract).2 "FileContracts"
       (Marshal (8 : Hash)) = Some raw' /\
     Unmarshal raw' = inr {| Contract := 100; Revisions := []; Proof := 103 |}).
Proof.
  destruct (performAll_last_wins three_updates output_and_contract
              (performAll three_updates output_and_contract).2
              get_put_outputTransactions Reference_fcInfo_roundtrip)
    as [H1 H2]; [compute_done|].
  split.
  - exact (H1 "SiacoinOutputs" (Marshal (5 : Hash))
             (Marshal {| OutputTx := 100; InputTx := Hash_zero |})
             {| OutputTx := 100; InputTx := Hash_zero |}
             (or_introl eq_refl) ltac:(compute_done) ltac:(compute_done)).
  - exact (H2 (Marshal (8 : Hash))
             (Marshal {| Contract := 100; Revisions := []; Proof := Hash_zero |})
             {| Contract := 100; Revisions := []; Proof := Hash_zero |}
             ltac:(compute_done) ltac:(compute_done)).
Defined.

(** [indexing_frame]: [addTransaction] leaves "Heights" alone, and
    [addBlockDB] a bucket that is none of its eight. *)
Lemma indexing_frame_witness :
  (addTransaction paying_tx empty_db).2 !! "Heights" = empty_db !! "Heights" /\
  (addBlockDB (explorer db_with_other) genesis_block).2 !! "Other"
    = db_with_other !! "Other".
Proof.
  split.
  - apply (proj1 indexing_frame paying_tx empty_db "Heights"). compute_done.
  - apply (proj2 indexing_frame (explorer db_with_other) genesis_block "Other").
    compute_done.
Defined.

(** [addTransaction_outputs_fresh] for the coin output of [paying_tx]. *)
Lemma addTransaction_outputs_fresh_witness :
  stored (addTransaction paying_tx empty_db).2 "SiacoinOutputs"
    (Marshal (Transaction_SiacoinOutputID paying_tx 0))
    = Some (Marshal {| OutputTx := Transaction_ID paying_tx; InputTx := Hash_zero |}).
Proof.
  apply (proj1 (addTransaction_outputs_fresh paying_tx empty_db
                  (addTransaction paying_tx empty_db).2 ltac:(compute_done))
           0%nat {| SiacoinOutput.Value := 3; SiacoinOutput.UnlockHash := 9 |}).
  reflexivity.
Defined.

(** [ErrNilEntry_only_from_lookups] for the genesis block, whose only
    transaction pays to an address. *)
Lemma ErrNilEntry_only_from_lookups_witness :
  (addBlockDB (explorer empty_db) genesis_block).1 <> Return (Some ErrNilEntry).
Proof.
  apply (ErrNilEntry_only_from_lookups (explorer empty_db) genesis_block).
  repeat constructor.
Defined.

(** [summary_target] in a build without [DEBUG]: the parent of block 2
    is unknown to the consensus set, and the summary carries the target
    17 that [ChildTarget] returned beside [false]. *)
Lemma summary_target_witness :
  stored (addBlockDB (stray_explorer empty_db) empty_block).2 "Heights" (Marshal 1%Z)
  = Some (Marshal {| ebd_ID := 2; ebd_Timestamp := 50%Z; ebd_Target := 17;
                     ebd_Size := Z.of_nat (String.length (Marshal empty_block)) |}).
Proof.
  exact (summary_target (stray_explorer empty_db) empty_block
           (addBlockDB (stray_explorer empty_db) empty_block).2 ltac:(compute_done)).
Defined.

(** [addBlockDB_missing_bucket] on the empty buckets less "Hashes", less
    "Blocks" and less "Heights". *)
Lemma addBlockDB_missing_bucket_witness :
  addBlockDB (explorer (delete "Hashes" empty_db)) empty_block
    = (Return (Some (errors_New "bucket Hashes does not exist")),
       delete "Hashes" empty_db) /\
  addBlockDB (explorer (delete "Blocks" empty_db)) empty_block
    = (Return (Some (errors_New "bucket does not exist: Blocks")),
       delete "Blocks" empty_db) /\
  addBlockDB (explorer (delete "Heights" empty_db)) empty_block
    = (Return (Some (errors_New "bucket Blocks does not exist")),
       delete "Heights" empty_db).
Proof.
  split; [|split].
  - apply (proj1 (addBlockDB_missing_bucket
                    (explorer (delete "Hashes" empty_db)) empty_block 17
                    ltac:(compute_done) ltac:(compute_done))).
    compute_done.
  - apply (proj1 (proj2 (addBlockDB_missing_bucket
                    (explorer (delete "Blocks" empty_db)) empty_block 17
                    ltac:(compute_done) ltac:(compute_done))) ∅);
      compute_done.
  - apply (proj2 (proj2 (addBlockDB_missing_bucket
                    (explorer (delete "Heights" empty_db)) empty_block 17
                    ltac:(compute_done) ltac:(compute_done))) ∅ ∅);
      compute_done.
Defined.

(** [addBlockDB_empty_block] for block 2 over the empty buckets. *)
Lemma addBlockDB_empty_block_witness :
  (addBlockDB (explorer empty_db) empty_block).1 = Return None /\
  stored (addBlockDB (explorer empty_db) empty_block).2 "Hashes" (Marshal (2 : Hash))
    = Some (Marshal hashBlock) /\
  stored (addBlockDB (explorer empty_db) empty_block).2 "Blocks" (Marshal (2 : Hash))
    = Some (Marshal {| bd_Block := empty_block; bd_Height := 1%Z |}) /\
  stored (addBlockDB (explorer empty_db) empty_block).2 "Heights" (Marshal 1%Z)
    = Some (Marshal {| ebd_ID := 2; ebd_Timestamp := 50%Z; ebd_Target := 17;
                       ebd_Size := Z.of_nat (String.length (Marshal empty_block)) |}) /\
  (forall name key,
     (name, key) <> ("Hashes", Marshal (2 : Hash)) ->
     (name, key) <> ("Blocks", Marshal (2 : Hash)) ->
     (name, key) <> ("Heights", Marshal 1%Z) ->
     stored (addBlockDB (explorer empty_db) empty_block).2 name key
     = stored empty_db name key).
Proof.
  refine (addBlockDB_empty_block (explorer empty_db) empty_block 17 ∅ ∅ ∅
            _ _ _ _ _ _ _ _ _ _ _);
    try compute_done.
  intros d. reflexivity.
Defined.

(** [missing_contract_aborts_block] for block 2 over the empty buckets:
    its transaction 101 revises, or proves, contract 8, which was never
    formed. *)
Lemma missing_contract_aborts_block_witness :
  (addTransaction revising_tx
     (uptoTransaction (explorer empty_db) (block_of revising_tx) 17 0 revising_tx empty_db).2
   = (Some ErrNilEntry,
      (uptoTransaction (explorer empty_db) (block_of revising_tx) 17 0 revising_tx empty_db).2) /\
   addBlockDB (explorer empty_db) (block_of revising_tx)
   = (Return (Some ErrNilEntry), empty_db)) /\
  (addTransaction proving_tx
     (uptoTransaction (explorer empty_db) (block_of proving_tx) 17 0 proving_tx empty_db).2
   = (Some ErrNilEntry,
      (uptoTransaction (explorer empty_db) (block_of proving_tx) 17 0 proving_tx empty_db).2) /\
   addBlockDB (explorer empty_db) (block_of proving_tx)
   = (Return (Some ErrNilEntry), empty_db)).
Proof.
  split.
  - refine (proj2 (proj1 (missing_contract_aborts_block (explorer empty_db)
             (block_of revising_tx) 17 0 revising_tx 0 _ _ ∅ _ _ _ _ _)
             the_revision _ _ _));
      compute_done.
  - refine (proj2 (proj2 (missing_contract_aborts_block (explorer empty_db)
             (block_of proving_tx) 17 0 proving_tx 0 _ _ ∅ _ _ _ _ _)
             {| StorageProof.ParentID := 8 |} _ _ _));
      compute_done.
Defined.
